(** * duckduckgo-mcp-server: the request pipeline of the server module

    A shallow embedding of the tool server: argument validation, the
    dual-window rate limiter, parameter translation, result normalisation
    and the tool dispatcher, followed by the properties the specification
    states about them.

    Conventions of the embedding.
    - A JavaScript string is its sequence of UTF-16 code units.
    - A JavaScript number is [NaN], an infinity, or a finite value; finite
      values are kept as exact rationals (every finite double is one).
      Counters and millisecond clocks, which only ever hold integers, are
      kept in [Z].
    - Console logging ([log]) has no effect on any value computed here and
      is left out.
    - [Date.now()] is an input of each admission check. *)

From Stdlib Require Import ZArith QArith Qround List Ascii String Lia Bool.
From stdpp Require Import base option list gmap pretty.

Local Open Scope Z_scope.

(* ===================================================================== *)
(** ** JavaScript strings *)
(* ===================================================================== *)

(** A string is a list of UTF-16 code units. *)
Definition jsstring : Type := list N.

(** An ASCII literal as a JavaScript string. *)
Definition js (s : string) : jsstring :=
  map N_of_ascii (list_ascii_of_string s).

(** The double quote character, U+0022. *)
Definition dquote : jsstring := [34%N].

Definition jseqb (a b : jsstring) : bool := bool_decide (a = b).

(** [String.prototype.length]. *)
Definition jslength (s : jsstring) : Z := Z.of_nat (length s).

(** WhiteSpace and LineTerminator code points, the ones [trim] removes. *)
Definition isWhiteSpace (c : N) : bool :=
  ((9 <=? c) && (c <=? 13) || (c =? 32) || (c =? 160) || (c =? 5760)
   || (8192 <=? c) && (c <=? 8202) || (c =? 8232) || (c =? 8233)
   || (c =? 8239) || (c =? 8287) || (c =? 12288) || (c =? 65279))%N.

Fixpoint trimStart (s : jsstring) : jsstring :=
  match s with
  | c :: s' => if isWhiteSpace c then trimStart s' else s
  | [] => []
  end.

Definition trimEnd (s : jsstring) : jsstring := rev (trimStart (rev s)).

(** [String.prototype.trim]. *)
Definition trim (s : jsstring) : jsstring := trimEnd (trimStart s).

(* ===================================================================== *)
(** ** JavaScript numbers *)
(* ===================================================================== *)

Inductive number : Type :=
  | NaN
  | NegInfinity
  | Finite (q : Q)
  | Infinity.

Definition ofZ (z : Z) : number := Finite (inject_Z z).

(** [a <= b]; every comparison with [NaN] is false. *)
Definition num_leb (a b : number) : bool :=
  match a, b with
  | NaN, _ | _, NaN => false
  | NegInfinity, _ => true
  | _, Infinity => true
  | Finite x, Finite y => Qle_bool x y
  | Finite _, NegInfinity => false
  | Infinity, _ => false
  end.

(** [a >= b]. *)
Definition num_geb (a b : number) : bool := num_leb b a.

(** [a - b]. *)
Definition num_sub (a b : number) : number :=
  match a, b with
  | NaN, _ | _, NaN => NaN
  | Finite x, Finite y => Finite (x - y)
  | Infinity, Infinity | NegInfinity, NegInfinity => NaN
  | Infinity, _ | _, NegInfinity => Infinity
  | NegInfinity, _ | _, Infinity => NegInfinity
  end.

(** Rounding towards zero. *)
Definition Qtrunc (q : Q) : Z :=
  if Qle_bool 0 q then Qfloor q else Qceiling q.

(** The final index of [slice(0, end)] on a sequence of length [len]:
    [end] goes through ToIntegerOrInfinity ([NaN] becomes 0, a fraction is
    truncated), a negative index counts from the end, and the result is
    clamped to [0, len]. *)
Definition sliceEnd (len : nat) (e : number) : nat :=
  match e with
  | NaN | NegInfinity => 0%nat
  | Infinity => len
  | Finite q =>
      let t := Qtrunc q in
      if t <? 0 then Z.to_nat (Z.max (Z.of_nat len + t) 0)
      else Z.to_nat (Z.min t (Z.of_nat len))
  end.

(** [xs.slice(0, end)], for arrays and strings alike. *)
Definition slice0 {A} (xs : list A) (e : number) : list A :=
  take (sliceEnd (length xs) e) xs.

(* ===================================================================== *)
(** ** JavaScript values, as far as the validators inspect them *)
(* ===================================================================== *)

(** An object is the finite map of its own properties; an array is an
    object whose keys are its indices. *)
#[warnings="-register-all"]
Inductive value : Type :=
  | VUndefined
  | VNull
  | VBool (b : bool)
  | VNumber (n : number)
  | VString (s : jsstring)
  | VObject (fields : gmap jsstring value).

(** ToBoolean, as used by [!args]. *)
Definition truthy (v : value) : bool :=
  match v with
  | VUndefined | VNull => false
  | VBool b => b
  | VNumber NaN => false
  | VNumber (Finite q) => negb (Qeq_bool q 0)
  | VNumber _ => true
  | VString s => negb (bool_decide (s = []))
  | VObject _ => true
  end.

(** Reading a property during destructuring: a missing key reads as
    [undefined]. *)
Definition getField (fields : gmap jsstring value) (k : string) : value :=
  default VUndefined (fields !! js k).

(* ===================================================================== *)
(** ** Token pruning helpers *)
(* ===================================================================== *)

(** Truncates text to [maxLen], adding an ellipsis if truncated. *)
Definition truncateSnippet (text : jsstring) (maxLen : number) : jsstring :=
  if num_leb (ofZ (jslength text)) maxLen then text
  else slice0 text (num_sub maxLen (ofZ 3)) ++ js "...".

Definition isHighSurrogate (c : N) : bool := ((55296 <=? c) && (c <=? 56319))%N.
Definition isLowSurrogate (c : N) : bool := ((56320 <=? c) && (c <=? 57343))%N.

(** The code point of a surrogate pair. *)
Definition codePoint (hi lo : N) : N :=
  ((hi - 55296) * 1024 + (lo - 56320) + 65536)%N.

(** The character class of the emoji pattern: U+1F600-1F64F, U+1F300-1F5FF,
    U+1F680-1F6FF, U+1F1E0-1F1FF, U+2600-26FF, U+2700-27BF. *)
Definition isEmoji (cp : N) : bool :=
  ((128512 <=? cp) && (cp <=? 128591) || (127744 <=? cp) && (cp <=? 128511)
   || (128640 <=? cp) && (cp <=? 128767) || (127456 <=? cp) && (cp <=? 127487)
   || (9728 <=? cp) && (cp <=? 9983) || (9984 <=? cp) && (cp <=? 10175))%N.

(** Removes emojis from text: a global replace in Unicode mode, so the
    text is read code point by code point. *)
Fixpoint stripEmojis (text : jsstring) : jsstring :=
  match text with
  | [] => []
  | c :: rest =>
      match rest with
      | d :: rest' =>
          if isHighSurrogate c && isLowSurrogate d then
            if isEmoji (codePoint c d) then stripEmojis rest'
            else c :: d :: stripEmojis rest'
          else if isEmoji c then stripEmojis rest else c :: stripEmojis rest
      | [] => if isEmoji c then [] else [c]
      end
  end.

(** The platform's [URL] class, kept abstract: the operations [cleanUrl]
    calls, with the laws the URL Standard gives them.
    - [newURL] is the constructor; [None] stands for the TypeError it
      throws on a string that does not parse.
    - [searchParams] is the list of name-value pairs of the query.
    - [searchParams_delete p] removes every pair named [p] and rewrites
      the query of the URL from the remaining list; it does so even when
      nothing was removed, so only a URL whose query was already rewritten
      is left as it is by a delete that removes nothing.
    - serialising and parsing again gives the same URL. *)
Class URLApi : Type := {
  URL : Type;
  newURL : jsstring -> option URL;
  searchParams : URL -> list (jsstring * jsstring);
  searchParams_delete : jsstring -> URL -> URL;
  toString : URL -> jsstring;
  searchParams_delete_spec : forall p u,
    searchParams (searchParams_delete p u)
    = filter (fun kv => kv.1 <> p) (searchParams u);
  searchParams_delete_absent : forall p q u,
    p ∉ (searchParams (searchParams_delete q u)).*1 ->
    searchParams_delete p (searchParams_delete q u) = searchParams_delete q u;
  newURL_toString : forall u, newURL (toString u) = Some u
}.

Definition trackingParams : list jsstring :=
  [ js "utm_source"; js "utm_medium"; js "utm_campaign"; js "utm_term";
    js "utm_content"; js "fbclid"; js "gclid"; js "msclkid"; js "ref" ].

(** [trackingParams.forEach((p) => u.searchParams.delete(p))]. *)
Definition deleteTracking `{URLApi} (u : URL) : URL :=
  foldl (fun u p => searchParams_delete p u) u trackingParams.

(** Cleans URL by removing common tracking parameters; returns the
    original if parsing fails. *)
Definition cleanUrl `{URLApi} (url : jsstring) : jsstring :=
  match newURL url with
  | Some u => toString (deleteTracking u)
  | None => url
  end.

(* ===================================================================== *)
(** ** JSON.stringify on the normalised results *)
(* ===================================================================== *)

Definition hexDigit (n : N) : N := (if n <? 10 then 48 + n else 87 + n)%N.

(** The [\uXXXX] escape of a code unit, in lower-case hexadecimal. *)
Definition unicodeEscape (c : N) : jsstring :=
  js "\u" ++ [ hexDigit (c / 4096 mod 16); hexDigit (c / 256 mod 16);
               hexDigit (c / 16 mod 16); hexDigit (c mod 16) ]%N.

(** The escape of one code unit that is not part of a surrogate pair. *)
Definition quoteUnit (c : N) : jsstring :=
  if (c =? 8)%N then js "\b"
  else if (c =? 9)%N then js "\t"
  else if (c =? 10)%N then js "\n"
  else if (c =? 12)%N then js "\f"
  else if (c =? 13)%N then js "\r"
  else if (c =? 34)%N then [92; 34]%N
  else if (c =? 92)%N then [92; 92]%N
  else if (c <? 32)%N || isHighSurrogate c || isLowSurrogate c
       then unicodeEscape c
  else [c].

Fixpoint quoteBody (s : jsstring) : jsstring :=
  match s with
  | [] => []
  | c :: rest =>
      match rest with
      | d :: rest' =>
          if isHighSurrogate c && isLowSurrogate d
          then c :: d :: quoteBody rest'
          else quoteUnit c ++ quoteBody rest
      | [] => quoteUnit c
      end
  end.

(** QuoteJSONString. *)
Definition quoteJSON (s : jsstring) : jsstring :=
  dquote ++ quoteBody s ++ dquote.

(** [Array.prototype.join]. *)
Fixpoint join (sep : jsstring) (xs : list jsstring) : jsstring :=
  match xs with
  | [] => []
  | [x] => x
  | x :: rest => x ++ sep ++ join sep rest
  end.

(** One object with string-valued properties, in insertion order. *)
Definition stringifyObject (props : list (string * jsstring)) : jsstring :=
  js "{"
  ++ join (js ",") (map (fun kv => quoteJSON (js kv.1) ++ js ":" ++ quoteJSON kv.2) props)
  ++ js "}".

Definition stringifyArray (objs : list (list (string * jsstring))) : jsstring :=
  js "[" ++ join (js ",") (map stringifyObject objs) ++ js "]".

(* ===================================================================== *)
(** ** Environment configuration *)
(* ===================================================================== *)

Inductive OutputFormat : Type := Dense | Json | Minimal.
Inductive SafeSearch : Type := Strict | Moderate | Off.
Inductive TimeRange : Type := Day | Week | Month | Year | All.

Record EnvConfig : Type := {
  DDG_MAX_RESULTS : number;
  DDG_MAX_SNIPPET_LENGTH : number;
  DDG_ENABLE_FULL_CONTENT : bool;
  DDG_STRIP_EMOJI : bool;
  DDG_OUTPUT_FORMAT : OutputFormat
}.

Record RateLimit : Type := {
  perSecond : number;
  perMonth : number
}.

Record SearchConfig : Type := {
  maxQueryLength : number;
  maxResults : number;
  defaultResults : number;
  maxSnippetLength : number;
  enableFullContent : bool;
  stripEmoji : bool;
  outputFormat : OutputFormat;
  defaultSafeSearch : SafeSearch;
  defaultRegion : jsstring
}.

Record Config : Type := {
  rateLimit : RateLimit;
  search : SearchConfig
}.

(** The process environment: a variable that is not set reads as
    [undefined]. *)
Abbreviation Env := (gmap jsstring jsstring).

Definition isDigit (c : N) : bool := ((48 <=? c) && (c <=? 57))%N.

Fixpoint digitsPrefix (s : jsstring) : jsstring :=
  match s with
  | c :: s' => if isDigit c then c :: digitsPrefix s' else []
  | [] => []
  end.

Definition digitsValue (ds : jsstring) : Z :=
  foldl (fun acc c => 10 * acc + (Z.of_N c - 48)) 0 ds.

(** [parseInt(s, 10)]: leading white space is skipped, a sign is read,
    then the longest run of decimal digits; no digit gives [NaN]. The
    integer is kept exact, without the rounding a double applies above
    2^53. *)
Definition parseInt10 (s : jsstring) : number :=
  let s1 := trimStart s in
  let '(sign, s2) :=
    match s1 with
    | c :: r => if (c =? 45)%N then (-1, r)
                else if (c =? 43)%N then (1, r) else (1, s1)
    | [] => (1, s1)
    end in
  match digitsPrefix s2 with
  | [] => NaN
  | ds => ofZ (sign * digitsValue ds)
  end.

Section Configuration.

(** StringToNumber, the coercion [Number(v)] that [z.coerce.number()]
    applies to a string; the grammar of numeric literals and the
    rounding to a double belong to the language and stay abstract. *)
Variable StringToNumber : jsstring -> number.

(** [z.coerce.number().min(lo).max(hi).default(dflt)]: an unset variable
    takes the default; a set one is coerced, and the parse fails on
    [NaN] and outside [lo, hi]. [None] is the ZodError. *)
Definition zCoerceNumber (lo hi dflt : number) (v : option jsstring)
  : option number :=
  match v with
  | None => Some dflt
  | Some s =>
      match StringToNumber s with
      | NaN => None
      | n => if num_geb n lo && num_leb n hi then Some n else None
      end
  end.

(** [z.preprocess((v) => v === "true" || v === "1", z.boolean())]. *)
Definition zFlag (v : option jsstring) : bool :=
  bool_decide (v = Some (js "true")) || bool_decide (v = Some (js "1")).

(** [z.enum(["dense", "json", "minimal"]).default("dense")]. *)
Definition zOutputFormat (v : option jsstring) : option OutputFormat :=
  match v with
  | None => Some Dense
  | Some s =>
      if jseqb s (js "dense") then Some Dense
      else if jseqb s (js "json") then Some Json
      else if jseqb s (js "minimal") then Some Minimal
      else None
  end.

(** [EnvConfigSchema.parse(process.env)]; [None] when it throws. *)
Definition EnvConfigSchema_parse (env : Env) : option EnvConfig :=
  r ← zCoerceNumber (ofZ 1) (ofZ 20) (ofZ 3) (env !! js "DDG_MAX_RESULTS");
  l ← zCoerceNumber (ofZ 50) (ofZ 500) (ofZ 150) (env !! js "DDG_MAX_SNIPPET_LENGTH");
  f ← zOutputFormat (env !! js "DDG_OUTPUT_FORMAT");
  Some {| DDG_MAX_RESULTS := r;
          DDG_MAX_SNIPPET_LENGTH := l;
          DDG_ENABLE_FULL_CONTENT := zFlag (env !! js "DDG_ENABLE_FULL_CONTENT");
          DDG_STRIP_EMOJI := zFlag (env !! js "DDG_STRIP_EMOJI");
          DDG_OUTPUT_FORMAT := f |}.

(** The module-level constant [CONFIG], built once when the module is
    loaded; [None] when the schema parse throws and the process stops
    before serving. The [server] and [logging] entries, which take no
    part in a request, are left out. *)
Definition CONFIG (env : Env) : option Config :=
  envConfig ← EnvConfigSchema_parse env;
  Some {| rateLimit :=
            {| perSecond := parseInt10 (default (js "1") (env !! js "RATE_LIMIT_PER_SECOND"));
               perMonth := parseInt10 (default (js "15000") (env !! js "RATE_LIMIT_PER_MONTH")) |};
          search :=
            {| maxQueryLength := ofZ 400;
               maxResults := ofZ 20;
               defaultResults := DDG_MAX_RESULTS envConfig;
               maxSnippetLength := DDG_MAX_SNIPPET_LENGTH envConfig;
               enableFullContent := DDG_ENABLE_FULL_CONTENT envConfig;
               stripEmoji := DDG_STRIP_EMOJI envConfig;
               outputFormat := DDG_OUTPUT_FORMAT envConfig;
               defaultSafeSearch := Moderate;
               defaultRegion := js "wt-wt" |} |}.

End Configuration.

(* ===================================================================== *)
(** ** Types of the server and of the search provider *)
(* ===================================================================== *)

(** The part of duck-duck-scrape the server uses. *)
Module DDG.

Inductive SafeSearchType : Type := STRICT | MODERATE | OFF.
Inductive SearchTimeType : Type := ALL | DAY | WEEK | MONTH | YEAR.

(** A value stored under a key of the options object. *)
Inductive OptionValue : Type :=
  | OUndefined
  | OSafeSearch (s : SafeSearchType)
  | ORegion (r : jsstring)
  | OTime (t : SearchTimeType).

Record SearchResult : Type := {
  title : jsstring;
  description : jsstring;
  url : jsstring;
  hostname : jsstring
}.

Record NewsResult : Type := {
  news_title : jsstring;
  excerpt : jsstring;
  news_url : jsstring;
  syndicate : jsstring;
  date : number;
  relativeTime : jsstring
}.

Record Results (A : Type) : Type := {
  noResults : bool;
  results : list A
}.
Arguments noResults {A} _.
Arguments results {A} _.

(** One outbound request: which entry point, the query, the options. *)
Inductive Call : Type :=
  | search (query : jsstring) (options : gmap jsstring OptionValue)
  | searchNews (query : jsstring) (options : gmap jsstring OptionValue).

End DDG.

Module Web.
Record Args : Type := {
  query : jsstring;
  count : option number;
  limit : option number;
  safeSearch : option SafeSearch;
  region : option jsstring;
  time : option TimeRange
}.
Record Result : Type := {
  title : jsstring;
  description : jsstring;
  url : jsstring;
  hostname : jsstring
}.
End Web.

Module News.
Record Args : Type := {
  query : jsstring;
  count : option number;
  limit : option number;
  safeSearch : option SafeSearch;
  time : option TimeRange
}.
Record Result : Type := {
  title : jsstring;
  excerpt : jsstring;
  url : jsstring;
  source : jsstring;
  date : jsstring;
  relativeTime : jsstring
}.
End News.

Record RequestCount : Type := {
  second : Z;
  month : Z;
  lastSecondReset : Z;
  lastMonthReset : Z
}.

(** What the handler can change: the counters of the rate limiter, and
    the requests sent to the provider so far (latest first). *)
Record World : Type := {
  requestCount : RequestCount;
  providerCalls : list DDG.Call
}.

(** A thrown value: an [Error] with its message, or anything else with
    the text [String(error)] gives it. *)
Inductive thrown : Type :=
  | ErrorObject (message : jsstring)
  | OtherValue (asString : jsstring).

Record CallToolResult : Type := {
  text : jsstring;
  isError : bool
}.

(** Computations that read and update the world and may throw; what was
    written before a throw stays written. *)
Definition M (A : Type) : Type := World -> (thrown + A) * World.

Definition ret {A} (a : A) : M A := fun w => (inr a, w).
Definition throw {A} (e : thrown) : M A := fun w => (inl e, w).
Definition bind {A B} (m : M A) (k : A -> M B) : M B :=
  fun w => match m w with
           | (inr a, w') => k a w'
           | (inl e, w') => (inl e, w')
           end.

Notation "x <~ m ;; k" := (bind m (fun x => k))
  (at level 100, m at next level, right associativity).
Notation "m ;;; k" := (bind m (fun _ => k))
  (at level 100, right associativity).

Definition ONE_SECOND_MS : Z := 1000.
Definition ONE_MONTH_MS : Z := 30 * 24 * 60 * 60 * 1000.

(** The counters as the module creates them; [t1] and [t2] are the two
    readings of the clock. *)
Definition initialRequestCount (t1 t2 : Z) : RequestCount :=
  {| second := 0; month := 0; lastSecondReset := t1; lastMonthReset := t2 |}.

Definition initialWorld (t1 t2 : Z) : World :=
  {| requestCount := initialRequestCount t1 t2; providerCalls := [] |}.

Definition newline : jsstring := [10%N].

(* ===================================================================== *)
(** ** The server *)
(* ===================================================================== *)

Section Server.

(** Number::toString, used by template literals. *)
Variable NumberToString : number -> jsstring.

(** [new Date(t).toLocaleDateString("en-US", { year: "numeric",
    month: "short", day: "numeric" })]; it depends on the time zone and
    the locale data of the host. *)
Variable toLocaleDateString : number -> jsstring.

Context `{URLApi}.

(** The configuration the module was loaded with. *)
Variable cfg : Config.

(** The replies of the provider: a result, or a thrown value. *)
Variable DDG_search :
  jsstring -> gmap jsstring DDG.OptionValue -> thrown + DDG.Results DDG.SearchResult.
Variable DDG_searchNews :
  jsstring -> gmap jsstring DDG.OptionValue -> thrown + DDG.Results DDG.NewsResult.

(** *** Rate limiting *)

Definition setRequestCount (w : World) (rc : RequestCount) : World :=
  {| requestCount := rc; providerCalls := providerCalls w |}.

(** Reset per-second counter if more than 1 second has passed. *)
Definition resetSecond (now : Z) (rc : RequestCount) : RequestCount :=
  if ONE_SECOND_MS <? now - lastSecondReset rc
  then {| second := 0; month := month rc;
          lastSecondReset := now; lastMonthReset := lastMonthReset rc |}
  else rc.

(** Reset monthly counter if more than 30 days have passed. *)
Definition resetMonth (now : Z) (rc : RequestCount) : RequestCount :=
  if ONE_MONTH_MS <? now - lastMonthReset rc
  then {| second := second rc; month := 0;
          lastSecondReset := lastSecondReset rc; lastMonthReset := now |}
  else rc.

Definition resetWindows (now : Z) (rc : RequestCount) : RequestCount :=
  resetMonth now (resetSecond now rc).

Definition increment (rc : RequestCount) : RequestCount :=
  {| second := second rc + 1; month := month rc + 1;
     lastSecondReset := lastSecondReset rc;
     lastMonthReset := lastMonthReset rc |}.

Definition perSecondMessage : jsstring :=
  js "Rate limit exceeded: Maximum "
  ++ NumberToString (perSecond (rateLimit cfg)) ++ js " request(s) per second".

Definition perMonthMessage : jsstring :=
  js "Rate limit exceeded: Maximum "
  ++ NumberToString (perMonth (rateLimit cfg)) ++ js " requests per month".

(** Checks and updates rate limits. Throws an error if request would
    exceed configured limits. [now] is the reading of [Date.now()]. *)
Definition checkRateLimit (now : Z) : M unit := fun w =>
  let rc := resetWindows now (requestCount w) in
  if num_geb (ofZ (second rc)) (perSecond (rateLimit cfg))
  then (inl (ErrorObject perSecondMessage), setRequestCount w rc)
  else if num_geb (ofZ (month rc)) (perMonth (rateLimit cfg))
  then (inl (ErrorObject perMonthMessage), setRequestCount w rc)
  else (inr tt, setRequestCount w (increment rc)).

(** *** Validation *)

Definition isValidQuery (query : value) : bool :=
  match query with
  | VString q =>
      (0 <? jslength (trim q))
      && num_leb (ofZ (jslength q)) (maxQueryLength (search cfg))
  | _ => false
  end.

Definition isValidCount (count : value) : bool :=
  match count with
  | VUndefined => true
  | VNumber n => num_geb n (ofZ 1) && num_leb n (maxResults (search cfg))
  | _ => false
  end.

Definition isValidLimit (limit : value) : bool :=
  match limit with
  | VUndefined => true
  | VNumber n => num_geb n (ofZ 1) && num_leb n (maxResults (search cfg))
  | _ => false
  end.

(** [xs.includes(v)] for an array of strings: only a string is equal to
    a string. *)
Definition includes (xs : list jsstring) (v : value) : bool :=
  match v with
  | VString s => bool_decide (s ∈ xs)
  | _ => false
  end.

Definition isValidSafeSearch (safeSearch : value) : bool :=
  match safeSearch with
  | VUndefined => true
  | _ => includes [js "strict"; js "moderate"; js "off"] safeSearch
  end.

Definition isValidTime (time : value) : bool :=
  match time with
  | VUndefined => true
  | _ => includes [js "day"; js "week"; js "month"; js "year"; js "all"] time
  end.

Definition VALID_REGIONS : list jsstring :=
  [ js "wt-wt"; js "us-en"; js "uk-en"; js "ca-en"; js "au-en"; js "de-de";
    js "fr-fr"; js "es-es"; js "it-it"; js "jp-jp"; js "br-pt"; js "mx-es";
    js "in-en" ].

Definition isLetter (c : N) : bool :=
  ((97 <=? c) && (c <=? 122) || (65 <=? c) && (c <=? 90))%N.

(** The pattern [/^[a-z]{2}-[a-z]{2}$/i]. *)
Definition regionPattern (s : jsstring) : bool :=
  match s with
  | [a; b; d; e; f] =>
      isLetter a && isLetter b && (d =? 45)%N && isLetter e && isLetter f
  | _ => false
  end.

Definition isValidRegion (region : value) : bool :=
  match region with
  | VUndefined => true
  | VString r => bool_decide (r ∈ VALID_REGIONS) || regionPattern r
  | _ => false
  end.

Definition isWebSearchArgs (args : value) : bool :=
  match args with
  | VObject fields =>
      isValidQuery (getField fields "query")
      && isValidCount (getField fields "count")
      && isValidLimit (getField fields "limit")
      && isValidSafeSearch (getField fields "safeSearch")
      && isValidRegion (getField fields "region")
      && isValidTime (getField fields "time")
  | _ => false
  end.

Definition isNewsSearchArgs (args : value) : bool :=
  match args with
  | VObject fields =>
      isValidQuery (getField fields "query")
      && isValidCount (getField fields "count")
      && isValidLimit (getField fields "limit")
      && isValidSafeSearch (getField fields "safeSearch")
      && isValidTime (getField fields "time")
  | _ => false
  end.

(** The type guards narrow the static type of [args] and leave the
    object as it is. The views below read that object at the narrowed
    type; on an object that passed the guard no case falls through. *)
Definition asString (v : value) : jsstring :=
  match v with VString s => s | _ => [] end.

Definition asNumber (v : value) : option number :=
  match v with VNumber n => Some n | _ => None end.

Definition asRegion (v : value) : option jsstring :=
  match v with VString s => Some s | _ => None end.

Definition asSafeSearch (v : value) : option SafeSearch :=
  match v with
  | VString s =>
      if jseqb s (js "strict") then Some Strict
      else if jseqb s (js "moderate") then Some Moderate
      else if jseqb s (js "off") then Some Off
      else None
  | _ => None
  end.

Definition asTime (v : value) : option TimeRange :=
  match v with
  | VString s =>
      if jseqb s (js "day") then Some Day
      else if jseqb s (js "week") then Some Week
      else if jseqb s (js "month") then Some Month
      else if jseqb s (js "year") then Some Year
      else if jseqb s (js "all") then Some All
      else None
  | _ => None
  end.

Definition fieldsOf (args : value) : gmap jsstring value :=
  match args with VObject fields => fields | _ => ∅ end.

Definition asWebSearchArgs (args : value) : Web.Args :=
  let fields := fieldsOf args in
  {| Web.query := asString (getField fields "query");
     Web.count := asNumber (getField fields "count");
     Web.limit := asNumber (getField fields "limit");
     Web.safeSearch := asSafeSearch (getField fields "safeSearch");
     Web.region := asRegion (getField fields "region");
     Web.time := asTime (getField fields "time") |}.

Definition asNewsSearchArgs (args : value) : News.Args :=
  let fields := fieldsOf args in
  {| News.query := asString (getField fields "query");
     News.count := asNumber (getField fields "count");
     News.limit := asNumber (getField fields "limit");
     News.safeSearch := asSafeSearch (getField fields "safeSearch");
     News.time := asTime (getField fields "time") |}.

(** *** Helper functions *)

Definition getSafeSearchType (safeSearch : SafeSearch) : DDG.SafeSearchType :=
  match safeSearch with
  | Strict => DDG.STRICT
  | Moderate => DDG.MODERATE
  | Off => DDG.OFF
  end.

(** [None] is the [undefined] the function returns for ["all"]. *)
Definition getTimeType (time : TimeRange) : option DDG.SearchTimeType :=
  match time with
  | All => None
  | Day => Some DDG.DAY
  | Week => Some DDG.WEEK
  | Month => Some DDG.MONTH
  | Year => Some DDG.YEAR
  end.

Definition formatDate (timestamp : number) : jsstring :=
  toLocaleDateString timestamp.

(** [...(timeType !== undefined && { time: timeType })]: spreading
    [false] adds no key. *)
Definition spreadTime (timeType : option DDG.SearchTimeType)
    (options : gmap jsstring DDG.OptionValue) : gmap jsstring DDG.OptionValue :=
  match timeType with
  | Some t => <[js "time" := DDG.OTime t]> options
  | None => options
  end.

Definition webOptions (safeSearch : SafeSearch) (region : jsstring)
    (time : TimeRange) : gmap jsstring DDG.OptionValue :=
  spreadTime (getTimeType time)
    (<[js "region" := DDG.ORegion region]>
       {[ js "safeSearch" := DDG.OSafeSearch (getSafeSearchType safeSearch) ]}).

Definition newsOptions (safeSearch : SafeSearch) (time : TimeRange)
    : gmap jsstring DDG.OptionValue :=
  spreadTime (getTimeType time)
    {[ js "safeSearch" := DDG.OSafeSearch (getSafeSearchType safeSearch) ]}.

(** [await DDG.search(query, options)]: the request is sent, and the
    reply is returned or thrown. *)
Definition callSearch (query : jsstring) (options : gmap jsstring DDG.OptionValue)
    : M (DDG.Results DDG.SearchResult) := fun w =>
  (DDG_search query options,
   {| requestCount := requestCount w;
      providerCalls := DDG.search query options :: providerCalls w |}).

Definition callSearchNews (query : jsstring) (options : gmap jsstring DDG.OptionValue)
    : M (DDG.Results DDG.NewsResult) := fun w =>
  (DDG_searchNews query options,
   {| requestCount := requestCount w;
      providerCalls := DDG.searchNews query options :: providerCalls w |}).

(** [limit ?? count ?? CONFIG.search.defaultResults]. *)
Definition effectiveLimit (limit count : option number) : number :=
  match limit with
  | Some l => l
  | None => match count with
            | Some c => c
            | None => defaultResults (search cfg)
            end
  end.

(** [a || b] on strings: the empty string is the only falsy one. *)
Definition orElse (a b : jsstring) : jsstring :=
  match a with [] => b | _ => a end.

(** *** Search functions *)

Definition normaliseWeb (r : DDG.SearchResult) : Web.Result :=
  {| Web.title := if stripEmoji (search cfg) then stripEmojis (DDG.title r)
                  else DDG.title r;
     Web.description :=
       if enableFullContent (search cfg)
       then orElse (DDG.description r) (DDG.title r)
       else truncateSnippet (orElse (DDG.description r) (DDG.title r))
              (maxSnippetLength (search cfg));
     Web.url := cleanUrl (DDG.url r);
     Web.hostname := DDG.hostname r |}.

Definition stripWebDescription (r : Web.Result) : Web.Result :=
  {| Web.title := Web.title r;
     Web.description := stripEmojis (Web.description r);
     Web.url := Web.url r;
     Web.hostname := Web.hostname r |}.

(** The array [results] of [performWebSearch]. *)
Definition webResults (effLimit : number) (raw : list DDG.SearchResult)
    : list Web.Result :=
  let results := map normaliseWeb (slice0 raw effLimit) in
  if stripEmoji (search cfg) then map stripWebDescription results else results.

Definition webResultJSON (r : Web.Result) : list (string * jsstring) :=
  [ ("title"%string, Web.title r); ("description"%string, Web.description r);
    ("url"%string, Web.url r); ("hostname"%string, Web.hostname r) ].

Definition count_of {A} (xs : list A) : jsstring :=
  NumberToString (ofZ (Z.of_nat (length xs))).

(** The text returned for a list of normalised results. *)
Definition renderWeb (query : jsstring) (effLimit : number)
    (results : list Web.Result) : jsstring :=
  match outputFormat (search cfg) with
  | Json => stringifyArray (map webResultJSON results)
  | Minimal =>
      join newline (map (fun r => Web.title r ++ js ": " ++ Web.url r) results)
  | Dense =>
      let formattedResults :=
        join newline
          (imap (fun i r =>
                   js "[" ++ NumberToString (ofZ (Z.of_nat i + 1)) ++ js "] "
                   ++ Web.title r ++ js " | " ++ Web.description r ++ js " | "
                   ++ Web.hostname r ++ js " " ++ Web.url r) results) in
      js "Web:" ++ dquote ++ query ++ dquote ++ js " (" ++ count_of results
      ++ js "/" ++ NumberToString effLimit ++ js ")" ++ newline
      ++ formattedResults
  end.

Definition noWebResultsMessage (query : jsstring) : jsstring :=
  js "No results for " ++ dquote ++ query ++ dquote.

Definition performWebSearch (args : Web.Args) (now : Z) : M jsstring :=
  let query := Web.query args in
  let safeSearch := default (defaultSafeSearch (search cfg)) (Web.safeSearch args) in
  let region := default (defaultRegion (search cfg)) (Web.region args) in
  let time := default All (Web.time args) in
  let effLimit := effectiveLimit (Web.limit args) (Web.count args) in
  checkRateLimit now ;;;
  searchResults <~ callSearch query (webOptions safeSearch region time) ;;
  if DDG.noResults searchResults then ret (noWebResultsMessage query)
  else ret (renderWeb query effLimit
              (webResults effLimit (DDG.results searchResults))).

Definition normaliseNews (r : DDG.NewsResult) : News.Result :=
  {| News.title := if stripEmoji (search cfg) then stripEmojis (DDG.news_title r)
                   else DDG.news_title r;
     News.excerpt :=
       if enableFullContent (search cfg) then DDG.excerpt r
       else truncateSnippet (DDG.excerpt r) (maxSnippetLength (search cfg));
     News.url := cleanUrl (DDG.news_url r);
     News.source := DDG.syndicate r;
     News.date := formatDate (DDG.date r);
     News.relativeTime := DDG.relativeTime r |}.

Definition stripNewsExcerpt (r : News.Result) : News.Result :=
  {| News.title := News.title r;
     News.excerpt := stripEmojis (News.excerpt r);
     News.url := News.url r;
     News.source := News.source r;
     News.date := News.date r;
     News.relativeTime := News.relativeTime r |}.

(** The array [results] of [performNewsSearch]. *)
Definition newsResults (effLimit : number) (raw : list DDG.NewsResult)
    : list News.Result :=
  let results := map normaliseNews (slice0 raw effLimit) in
  if stripEmoji (search cfg) then map stripNewsExcerpt results else results.

Definition newsResultJSON (r : News.Result) : list (string * jsstring) :=
  [ ("title"%string, News.title r); ("excerpt"%string, News.excerpt r);
    ("url"%string, News.url r); ("source"%string, News.source r);
    ("date"%string, News.date r); ("relativeTime"%string, News.relativeTime r) ].

Definition renderNews (query : jsstring) (effLimit : number)
    (results : list News.Result) : jsstring :=
  match outputFormat (search cfg) with
  | Json => stringifyArray (map newsResultJSON results)
  | Minimal =>
      join newline (map (fun r => News.title r ++ js ": " ++ News.url r) results)
  | Dense =>
      let formattedResults :=
        join newline
          (imap (fun i r =>
                   js "[" ++ NumberToString (ofZ (Z.of_nat i + 1)) ++ js "] "
                   ++ News.title r ++ js " | " ++ News.excerpt r ++ js " | "
                   ++ News.source r ++ js " " ++ News.relativeTime r ++ js " "
                   ++ News.url r) results) in
      js "News:" ++ dquote ++ query ++ dquote ++ js " (" ++ count_of results
      ++ js "/" ++ NumberToString effLimit ++ js ")" ++ newline
      ++ formattedResults
  end.

Definition noNewsResultsMessage (query : jsstring) : jsstring :=
  js "No news for " ++ dquote ++ query ++ dquote.

Definition performNewsSearch (args : News.Args) (now : Z) : M jsstring :=
  let query := News.query args in
  let safeSearch := default (defaultSafeSearch (search cfg)) (News.safeSearch args) in
  let time := default All (News.time args) in
  let effLimit := effectiveLimit (News.limit args) (News.count args) in
  checkRateLimit now ;;;
  searchResults <~ callSearchNews query (newsOptions safeSearch time) ;;
  if DDG.noResults searchResults then ret (noNewsResultsMessage query)
  else ret (renderNews query effLimit
              (newsResults effLimit (DDG.results searchResults))).

(** *** Request handler *)

Definition invalidArgumentsMessage (tool : string) : jsstring :=
  js "Invalid arguments for " ++ js tool
  ++ js ". Query must be a non-empty string (max "
  ++ NumberToString (maxQueryLength (search cfg)) ++ js " chars).".

(** [error instanceof Error ? error.message : String(error)]. *)
Definition errorText (e : thrown) : jsstring :=
  match e with
  | ErrorObject message => message
  | OtherValue s => s
  end.

(** The body of the [try] block. *)
Definition dispatch (name : jsstring) (args : value) (now : Z)
    : M CallToolResult :=
  if negb (truthy args) then throw (ErrorObject (js "No arguments provided"))
  else if jseqb name (js "duckduckgo_web_search") then
    if negb (isWebSearchArgs args)
    then throw (ErrorObject (invalidArgumentsMessage "duckduckgo_web_search"))
    else results <~ performWebSearch (asWebSearchArgs args) now ;;
         ret {| text := results; isError := false |}
  else if jseqb name (js "duckduckgo_news_search") then
    if negb (isNewsSearchArgs args)
    then throw (ErrorObject (invalidArgumentsMessage "duckduckgo_news_search"))
    else results <~ performNewsSearch (asNewsSearchArgs args) now ;;
         ret {| text := results; isError := false |}
  else ret {| text := js "Unknown tool: " ++ name; isError := true |}.

(** The handler of [CallToolRequestSchema]: [name] and [args] are
    [request.params.name] and [request.params.arguments] ([VUndefined]
    when the request carries none), [now] the clock reading of the
    admission check. Whatever is thrown inside is caught and returned
    as an error result. *)
Definition callToolHandler (name : jsstring) (args : value) (now : Z)
    (w : World) : CallToolResult * World :=
  match dispatch name args now w with
  | (inr result, w') => (result, w')
  | (inl error, w') =>
      ({| text := js "Error: " ++ errorText error; isError := true |}, w')
  end.

End Server.

Section Reachability.

Variable NumberToString : number -> jsstring.
Variable toLocaleDateString : number -> jsstring.
Context `{URLApi}.
Variable cfg : Config.

(** The worlds the server goes through: the one the module creates,
    and the one the handler leaves after any request, at any clock
    reading, whatever the provider replies. Both tools go through the
    same handler and the same counters. *)
Inductive reachable : World -> Prop :=
  | reachable_start (t1 t2 : Z) : reachable (initialWorld t1 t2)
  | reachable_call (w : World)
      (DDG_search :
         jsstring -> gmap jsstring DDG.OptionValue -> thrown + DDG.Results DDG.SearchResult)
      (DDG_searchNews :
         jsstring -> gmap jsstring DDG.OptionValue -> thrown + DDG.Results DDG.NewsResult)
      (name : jsstring) (args : value) (now : Z) :
      reachable w ->
      reachable (callToolHandler NumberToString toLocaleDateString cfg
                   DDG_search DDG_searchNews name args now w).2.

End Reachability.

(** [w] after one more request was sent to the provider. *)
Definition logCall (c : DDG.Call) (w : World) : World :=
  {| requestCount := requestCount w; providerCalls := c :: providerCalls w |}.

(** A [query] the specification wants refused: one that is empty or all
    white space, or longer than 400 characters; anything that is not a
    string is counted in. *)
Definition queryRefused (v : value) : Prop :=
  match v with
  | VString q => forallb isWhiteSpace q = true \/ 400 < jslength q
  | _ => True
  end.

(** A [limit] or [count] that is present and is not a number between 1
    and 20. *)
Definition countRefused (v : value) : Prop :=
  match v with
  | VUndefined => False
  | VNumber n => num_geb n (ofZ 1) && num_leb n (ofZ 20) = false
  | _ => True
  end.

(* ===================================================================== *)
(** ** Reference implementations of the platform functions

    The properties below hold for every implementation of the platform
    functions the server is parametrised by. The ones given here are used
    to run the server on concrete requests. *)
(* ===================================================================== *)

(** A printer for numbers: [NaN], the infinities and integers print as
    Number::toString prints them (below 10^21); a fraction, which the
    examples never print, is shown by its integer part. *)
Definition integerToString (n : number) : jsstring :=
  match n with
  | NaN => js "NaN"
  | Infinity => js "Infinity"
  | NegInfinity => js "-Infinity"
  | Finite q => js (pretty (Qtrunc q))
  end.

(** An implementation of [URLApi] for plain web addresses,
    [http(s)://host/path?query]: a host of lower-case letters and dots, a
    path without dots, a query of unreserved characters, so that no
    percent-encoding and no normalisation of host or path is involved and
    an address is its own serialisation. Every other string is refused,
    which the platform's parser would not do for all of them. A URL
    object is represented by its serialisation. *)
Module PlainURL.

Definition isAlnum (c : N) : bool :=
  ((48 <=? c) && (c <=? 57) || (65 <=? c) && (c <=? 90)
   || (97 <=? c) && (c <=? 122))%N.

(** Characters the form-urlencoded serialiser leaves as they are. *)
Definition unreserved (c : N) : bool :=
  (isAlnum c || (c =? 42) || (c =? 45) || (c =? 46) || (c =? 95))%N.

Definition hostChar (c : N) : bool :=
  ((97 <=? c) && (c <=? 122) || (c =? 46))%N.

Definition pathChar (c : N) : bool :=
  (isAlnum c || (c =? 45) || (c =? 47) || (c =? 95) || (c =? 126))%N.

(** Splits at the first occurrence of [c], if there is one. *)
Fixpoint splitAt (c : N) (s : jsstring) : jsstring * option jsstring :=
  match s with
  | [] => ([], None)
  | x :: r =>
      if (x =? c)%N then ([], Some r)
      else let '(a, b) := splitAt c r in (x :: a, b)
  end.

(** Splits at every occurrence of [c]. *)
Fixpoint splitOn (c : N) (s : jsstring) : list jsstring :=
  match s with
  | [] => [[]]
  | x :: r =>
      if (x =? c)%N then [] :: splitOn c r
      else match splitOn c r with
           | p :: ps => (x :: p) :: ps
           | [] => [[x]]
           end
  end.

Definition nonEmpty (s : jsstring) : bool :=
  match s with [] => false | _ => true end.

Definition parsePair (piece : jsstring) : jsstring * jsstring :=
  let '(k, v) := splitAt 61 piece in (k, default [] v).

(** The form-urlencoded parser, without the decoding steps. *)
Definition parseQuery (q : jsstring) : list (jsstring * jsstring) :=
  map parsePair (List.filter nonEmpty (splitOn 38 q)).

(** The form-urlencoded serialiser, without the encoding steps. *)
Definition serializeQuery (l : list (jsstring * jsstring)) : jsstring :=
  join [38%N] (map (fun kv => kv.1 ++ 61%N :: kv.2) l).

Definition okPair (kv : jsstring * jsstring) : bool :=
  forallb unreserved kv.1 && forallb unreserved kv.2.

Definition stripPrefix (p s : jsstring) : option jsstring :=
  if bool_decide (take (length p) s = p) then Some (drop (length p) s) else None.

Definition okHost (h : jsstring) : bool :=
  match h with
  | c :: _ => ((97 <=? c) && (c <=? 122))%N && forallb hostChar h
  | [] => false
  end.

Definition okAuthorityPath (rest : jsstring) : bool :=
  match splitAt 47 rest with
  | (host, Some path) => okHost host && forallb pathChar path
  | _ => false
  end.

Definition okBase (b : jsstring) : bool :=
  forallb (fun c => negb (c =? 63)%N) b
  && match stripPrefix (js "https://") b, stripPrefix (js "http://") b with
     | Some rest, _ | None, Some rest => okAuthorityPath rest
     | None, None => false
     end.

Definition valid (s : jsstring) : bool :=
  match splitAt 63 s with
  | (base, None) => okBase base
  | (base, Some q) => okBase base && forallb okPair (parseQuery q)
  end.

Definition base (s : jsstring) : jsstring := (splitAt 63 s).1.

Definition params (s : jsstring) : list (jsstring * jsstring) :=
  match (splitAt 63 s).2 with
  | Some q => parseQuery q
  | None => []
  end.

(** The serialisation after the query was rewritten from [l]: an empty
    list leaves no query at all. *)
Definition withParams (b : jsstring) (l : list (jsstring * jsstring)) : jsstring :=
  match l with
  | [] => b
  | _ => b ++ 63%N :: serializeQuery l
  end.

Definition deleteParam (p : jsstring) (s : jsstring) : jsstring :=
  withParams (base s) (filter (fun kv => kv.1 <> p) (params s)).

Lemma splitAt_absent c s :
  forallb (fun x => negb (x =? c)%N) s = true -> splitAt c s = (s, None).
Proof.
  induction s as [|x r IH]; simpl; [done|].
  intros [Hx Hr]%andb_prop. apply negb_true_iff in Hx. rewrite Hx.
  by rewrite (IH Hr).
Qed.

Lemma splitAt_app c a r :
  forallb (fun x => negb (x =? c)%N) a = true ->
  splitAt c (a ++ c :: r) = (a, Some r).
Proof.
  induction a as [|x a IH]; simpl.
  - by rewrite N.eqb_refl.
  - intros [Hx Ha]%andb_prop. apply negb_true_iff in Hx. rewrite Hx.
    by rewrite (IH Ha).
Qed.

Lemma splitOn_absent c s :
  forallb (fun x => negb (x =? c)%N) s = true -> splitOn c s = [s].
Proof.
  induction s as [|x r IH]; simpl; [done|].
  intros [Hx Hr]%andb_prop. apply negb_true_iff in Hx. rewrite Hx.
  by rewrite (IH Hr).
Qed.

Lemma splitOn_app c a r :
  forallb (fun x => negb (x =? c)%N) a = true ->
  splitOn c (a ++ c :: r) = a :: splitOn c r.
Proof.
  induction a as [|x a IH]; simpl.
  - by rewrite N.eqb_refl.
  - intros [Hx Ha]%andb_prop. apply negb_true_iff in Hx. rewrite Hx.
    by rewrite (IH Ha).
Qed.

Lemma unreserved_not c x :
  (c = 38 \/ c = 61 \/ c = 63)%N -> unreserved x = true -> negb (x =? c)%N = true.
Proof.
  intros Hc Hx. apply negb_true_iff, N.eqb_neq. intros ->.
  destruct Hc as [->| [-> | ->]]; discriminate Hx.
Qed.

Lemma unreserved_all_not c s :
  (c = 38 \/ c = 61 \/ c = 63)%N ->
  forallb unreserved s = true -> forallb (fun x => negb (x =? c)%N) s = true.
Proof.
  intros Hc. induction s as [|x s IH]; simpl; [done|].
  intros [Hx Hs]%andb_prop. rewrite (unreserved_not c x Hc Hx). by apply IH.
Qed.

Lemma piece_no_amp kv :
  okPair kv = true ->
  forallb (fun x => negb (x =? 38)%N) (kv.1 ++ 61%N :: kv.2) = true.
Proof.
  intros [Hk Hv]%andb_prop. rewrite forallb_app. simpl.
  rewrite !unreserved_all_not by (done || lia || auto). done.
Qed.

Lemma parsePair_piece kv :
  okPair kv = true -> parsePair (kv.1 ++ 61%N :: kv.2) = kv.
Proof.
  intros [Hk Hv]%andb_prop. unfold parsePair.
  rewrite splitAt_app by (apply unreserved_all_not; auto).
  by destruct kv.
Qed.

Lemma piece_nonEmpty (k v : jsstring) : nonEmpty (k ++ 61%N :: v) = true.
Proof. by destruct k. Qed.

Lemma serializeQuery_cons kv kv' l :
  serializeQuery (kv :: kv' :: l)
  = (kv.1 ++ 61%N :: kv.2) ++ 38%N :: serializeQuery (kv' :: l).
Proof. reflexivity. Qed.

Lemma parseQuery_serializeQuery l :
  forallb okPair l = true -> parseQuery (serializeQuery l) = l.
Proof.
  induction l as [|kv l IH]; [done|].
  intros [Hkv Hl]%andb_prop. destruct l as [|kv' l].
  - unfold parseQuery, serializeQuery. cbn [map join].
    rewrite splitOn_absent by by apply piece_no_amp.
    cbn [List.filter]. rewrite piece_nonEmpty. cbn [map].
    by rewrite parsePair_piece.
  - rewrite serializeQuery_cons. unfold parseQuery.
    rewrite splitOn_app by by apply piece_no_amp.
    cbn [List.filter]. rewrite piece_nonEmpty. cbn [map].
    rewrite parsePair_piece by done.
    f_equal. by apply IH.
Qed.

Lemma serializeQuery_no_question l :
  forallb okPair l = true ->
  forallb (fun x => negb (x =? 63)%N) (serializeQuery l) = true.
Proof.
  induction l as [|kv l IH]; [done|].
  intros [Hkv Hl]%andb_prop.
  assert (forallb (fun x => negb (x =? 63)%N) (kv.1 ++ 61%N :: kv.2) = true) as Hp.
  { apply andb_prop in Hkv as [Hk Hv]. rewrite forallb_app. simpl.
    rewrite !unreserved_all_not by auto. done. }
  destruct l as [|kv' l]; [done|].
  rewrite serializeQuery_cons, forallb_app, Hp. simpl. by apply IH.
Qed.

Lemma okBase_no_question b :
  okBase b = true -> forallb (fun c => negb (c =? 63)%N) b = true.
Proof. by intros [? _]%andb_prop. Qed.

Lemma valid_params s : valid s = true -> forallb okPair (params s) = true.
Proof.
  unfold valid, params. destruct (splitAt 63 s) as [b [q|]]; simpl; [|done].
  by intros [_ ?]%andb_prop.
Qed.

Lemma valid_base s : valid s = true -> okBase (base s) = true.
Proof.
  unfold valid, base. destruct (splitAt 63 s) as [b [q|]]; simpl; [|done].
  by intros [? _]%andb_prop.
Qed.

Lemma forallb_filter_keep {A} (f : A -> bool) (P : A -> Prop)
    `{!forall x, Decision (P x)} (l : list A) :
  forallb f l = true -> forallb f (filter P l) = true.
Proof.
  induction l as [|x l IH]; simpl; [done|].
  intros [Hx Hl]%andb_prop. rewrite filter_cons.
  destruct (decide (P x)); simpl; [rewrite Hx|]; by apply IH.
Qed.

(** What a rewritten serialisation parses to. *)
Lemma withParams_parts b l :
  okBase b = true -> forallb okPair l = true ->
  valid (withParams b l) = true
  /\ base (withParams b l) = b /\ params (withParams b l) = l.
Proof.
  intros Hb Hl. pose proof (okBase_no_question b Hb) as Hq.
  unfold valid, base, params, withParams. destruct l as [|kv l].
  - rewrite splitAt_absent by done. simpl. by rewrite Hb.
  - rewrite splitAt_app by done. simpl.
    rewrite parseQuery_serializeQuery by done. by rewrite Hb, Hl.
Qed.

Lemma deleteParam_valid p s : valid s = true -> valid (deleteParam p s) = true.
Proof.
  intros Hs. apply withParams_parts; [by apply valid_base|].
  by apply forallb_filter_keep, valid_params.
Qed.

Definition T : Type := { s : jsstring | Is_true (valid s) }.

Definition parse (s : jsstring) : option T :=
  match decide (Is_true (valid s)) with
  | left ok => Some (exist _ s ok)
  | right _ => None
  end.

Lemma deleteParam_ok (p : jsstring) (u : T) :
  Is_true (valid (deleteParam p (proj1_sig u))).
Proof.
  destruct u as [s Hs]. apply Is_true_eq_left, deleteParam_valid.
  by apply Is_true_eq_true.
Qed.

Definition delete (p : jsstring) (u : T) : T :=
  exist _ (deleteParam p (proj1_sig u)) (deleteParam_ok p u).

Lemma T_eq (u v : T) : proj1_sig u = proj1_sig v -> u = v.
Proof. apply sig_eq_pi. intros x. apply Is_true_pi. Qed.

Lemma delete_params p u :
  params (proj1_sig (delete p u)) = filter (fun kv => kv.1 <> p) (params (proj1_sig u)).
Proof.
  destruct u as [s Hu]. pose proof (Is_true_eq_true _ Hu) as Hs. simpl. unfold deleteParam.
  apply withParams_parts; [by apply valid_base|].
  by apply forallb_filter_keep, valid_params.
Qed.

Lemma delete_absent p q u :
  p ∉ (params (proj1_sig (delete q u))).*1 -> delete p (delete q u) = delete q u.
Proof.
  intros Hp. apply T_eq.
  destruct u as [s Hu]. pose proof (Is_true_eq_true _ Hu) as Hs. simpl in *.
  set (l := filter (fun kv => kv.1 <> q) (params s)) in *.
  assert (okBase (base s) = true) as Hb by by apply valid_base.
  assert (forallb okPair l = true) as Hl
    by by apply forallb_filter_keep, valid_params.
  destruct (withParams_parts (base s) l Hb Hl) as (_ & Hbase & Hpar).
  unfold deleteParam in *. fold l in Hp |- *.
  rewrite Hbase, Hpar in *. f_equal.
  clear -Hp. induction l as [|kv l IH]; [done|].
  rewrite fmap_cons, not_elem_of_cons in Hp. destruct Hp as [Hne Hp].
  rewrite filter_cons_True by done. f_equal. by apply IH.
Qed.

Lemma parse_serialised u : parse (proj1_sig u) = Some u.
Proof.
  unfold parse. destruct u as [s Hs]. simpl.
  destruct (decide (Is_true (valid s))) as [ok|no]; [|done].
  f_equal. by apply T_eq.
Qed.

#[export] Instance api : URLApi := {|
  URL := T;
  newURL := parse;
  searchParams := fun u => params (proj1_sig u);
  searchParams_delete := delete;
  toString := fun u => proj1_sig u;
  searchParams_delete_spec := delete_params;
  searchParams_delete_absent := delete_absent;
  newURL_toString := parse_serialised
|}.

End PlainURL.


(** The configuration of an environment that sets none of the variables. *)
Definition defaultConfig : Config :=
  {| rateLimit := {| perSecond := ofZ 1; perMonth := ofZ 15000 |};
     search :=
       {| maxQueryLength := ofZ 400;
          maxResults := ofZ 20;
          defaultResults := ofZ 3;
          maxSnippetLength := ofZ 150;
          enableFullContent := false;
          stripEmoji := false;
          outputFormat := Dense;
          defaultSafeSearch := Moderate;
          defaultRegion := js "wt-wt" |} |}.

(** A date text for examples in which no date is rendered. *)
Definition constantDate : number -> jsstring := fun _ => js "Jan 1, 1970".

(** A coercion for examples in which no numeric key of the schema is set. *)
Definition constantNaN : jsstring -> number := fun _ => NaN.

(** Providers for the examples: one that signals no results, one that
    replies with an empty list without the signal, one that replies with
    three results. *)
Definition providerNoResults {A} :
    jsstring -> gmap jsstring DDG.OptionValue -> thrown + DDG.Results A :=
  fun _ _ => inr {| DDG.noResults := true; DDG.results := [] |}.

Definition providerEmptyList {A} :
    jsstring -> gmap jsstring DDG.OptionValue -> thrown + DDG.Results A :=
  fun _ _ => inr {| DDG.noResults := false; DDG.results := [] |}.

Definition threeResults : list DDG.SearchResult :=
  map (fun page =>
         {| DDG.title := js "Title " ++ js page;
            DDG.description := js "About " ++ js page;
            DDG.url := js "https://x.com/" ++ js page ++ js "?utm_source=y&id=1";
            DDG.hostname := js "x.com" |})
      ["a"; "b"; "c"]%string.

Definition providerThree :
    jsstring -> gmap jsstring DDG.OptionValue -> thrown + DDG.Results DDG.SearchResult :=
  fun _ _ => inr {| DDG.noResults := false; DDG.results := threeResults |}.

(** The handler of the examples: integers printed in decimal, the
    plain-address implementation of URLs, the default configuration. *)
Definition exampleHandler (cfg : Config)
    (DDG_search :
       jsstring -> gmap jsstring DDG.OptionValue -> thrown + DDG.Results DDG.SearchResult)
    (DDG_searchNews :
       jsstring -> gmap jsstring DDG.OptionValue -> thrown + DDG.Results DDG.NewsResult)
    : jsstring -> value -> Z -> World -> CallToolResult * World :=
  callToolHandler (H := PlainURL.api) integerToString constantDate cfg
    DDG_search DDG_searchNews.

(* ===================================================================== *)
(** ** Logging, runs of admission checks, lines of text *)
(* ===================================================================== *)

(** The levels of [log] and their ranks, [LOG_LEVELS]. *)
Module Log.

Inductive Level : Type := debug | info | warn | error | none.

Definition LOG_LEVELS (l : Level) : Z :=
  match l with
  | debug => 0
  | info => 1
  | warn => 2
  | error => 3
  | none => 4
  end.

(** [LOG_LEVELS[name]] for a string: [None], the [undefined] of a
    missing key, unless the string is one of the five names. *)
Definition rank (name : jsstring) : option Z :=
  if jseqb name (js "debug") then Some (LOG_LEVELS debug)
  else if jseqb name (js "info") then Some (LOG_LEVELS info)
  else if jseqb name (js "warn") then Some (LOG_LEVELS warn)
  else if jseqb name (js "error") then Some (LOG_LEVELS error)
  else if jseqb name (js "none") then Some (LOG_LEVELS none)
  else None.

(** [CONFIG.logging.level]: the variable LOG_LEVEL in lower case, or
    "info"; the string is cast to a level without a check.
    [toLowerCase] is the platform's. *)
Definition configuredLevel (toLowerCase : jsstring -> jsstring) (env : Env)
    : jsstring :=
  default (js "info") (toLowerCase <$> env !! js "LOG_LEVEL").

(** Whether [log(level, ...)] writes to the console:
    [LOG_LEVELS[level] >= LOG_LEVELS[CONFIG.logging.level]], a comparison
    that is false when the right side is [undefined]. *)
Definition writes (configured : jsstring) (level : Level) : bool :=
  match rank configured with
  | Some threshold => threshold <=? LOG_LEVELS level
  | None => false
  end.

End Log.

(** A run of admission checks, one per clock reading: the outcomes in
    order, and the world at the end. *)
Fixpoint admissions (NumberToString : number -> jsstring) (cfg : Config)
    (nows : list Z) (w : World) : list (thrown + unit) * World :=
  match nows with
  | [] => ([], w)
  | now :: rest =>
      let '(r, w1) := checkRateLimit NumberToString cfg now w in
      let '(rs, w2) := admissions NumberToString cfg rest w1 in
      (r :: rs, w2)
  end.

(** [text.split("\n")]. *)
Definition splitLines (text : jsstring) : list jsstring :=
  PlainURL.splitOn 10 text.

(** The strings of the two enumerations, as the tool schemas list them. *)
Definition safeSearchName (s : SafeSearch) : jsstring :=
  match s with
  | Strict => js "strict"
  | Moderate => js "moderate"
  | Off => js "off"
  end.

Definition timeName (t : TimeRange) : jsstring :=
  match t with
  | Day => js "day"
  | Week => js "week"
  | Month => js "month"
  | Year => js "year"
  | All => js "all"
  end.

(** A code unit below U+2600, the lowest code point of the emoji
    pattern. *)
Definition plainUnit (c : N) : bool := (c <? 9728)%N.

(** A text without a line feed. *)
Definition singleLine (s : jsstring) : bool :=
  forallb (fun c => negb (c =? 10)%N) s.

(** More material for the examples: a provider that throws, a
    configuration with a per-second cap of 3, one in json mode, and a
    result of the provider whose description is 200 characters long. *)
Definition providerFailing {A} :
    jsstring -> gmap jsstring DDG.OptionValue -> thrown + DDG.Results A :=
  fun _ _ => inl (ErrorObject (js "network down")).

Definition configCap3 : Config :=
  {| rateLimit := {| perSecond := ofZ 3; perMonth := ofZ 15000 |};
     search := search defaultConfig |}.


Definition longResult : DDG.SearchResult :=
  {| DDG.title := js "Long";
     DDG.description := replicate 200 97%N;
     DDG.url := js "https://x.com/long?ref=a";
     DDG.hostname := js "x.com" |}.

(* ===================================================================== *)
(** ** Numbers and slices *)
(* ===================================================================== *)

Lemma num_leb_ofZ (a b : Z) : num_leb (ofZ a) (ofZ b) = true <-> a <= b.
Proof.
  unfold num_leb, ofZ. by rewrite Qle_bool_iff, <- Zle_Qle.
Qed.

Lemma num_leb_ofZ_false (a b : Z) : num_leb (ofZ a) (ofZ b) = false <-> b < a.
Proof.
  rewrite <- not_true_iff_false, num_leb_ofZ. lia.
Qed.

Lemma Qtrunc_Z (z : Z) : Qtrunc (inject_Z z) = z.
Proof.
  unfold Qtrunc. destruct (Qle_bool 0 (inject_Z z)).
  - apply Qfloor_Z.
  - apply Qceiling_Z.
Qed.

Lemma Qtrunc_comp (x y : Q) : (x == y)%Q -> Qtrunc x = Qtrunc y.
Proof.
  intros E. unfold Qtrunc.
  assert (Qle_bool 0 x = Qle_bool 0 y) as ->.
  { apply eq_true_iff_eq. rewrite !Qle_bool_iff. by rewrite E. }
  destruct (Qle_bool 0 y); [by apply Qfloor_comp | by apply Qceiling_comp].
Qed.

(** A non-negative value is at least its truncation. *)
Lemma Qtrunc_le (q : Q) : (0 <= q)%Q -> 0 <= Qtrunc q /\ (inject_Z (Qtrunc q) <= q)%Q.
Proof.
  intros Hq. unfold Qtrunc. apply Qle_bool_iff in Hq as Hb. rewrite Hb. split.
  - rewrite <- (Qfloor_Z 0). by apply Qfloor_resp_le.
  - apply Qfloor_le.
Qed.

Lemma sliceEnd_le_length (len : nat) (e : number) : (sliceEnd len e <= len)%nat.
Proof.
  destruct e as [| |q|]; simpl; try lia.
  destruct (Qtrunc q <? 0) eqn:E; lia.
Qed.

(** From 0 upwards, [slice(0, e)] keeps at most [e] elements. *)
Lemma sliceEnd_le_end (len : nat) (e : number) :
  num_leb (ofZ 0) e = true -> num_leb (ofZ (Z.of_nat (sliceEnd len e))) e = true.
Proof.
  destruct e as [| |q|]; simpl; try done.
  intros Hq%Qle_bool_iff. destruct (Qtrunc_le q Hq) as [H0 Hle].
  destruct (Qtrunc q <? 0) eqn:E; [lia|].
  apply Qle_bool_iff. apply Qle_trans with (inject_Z (Qtrunc q)); [|exact Hle].
  rewrite <- Zle_Qle. lia.
Qed.

Lemma slice0_length {A} (xs : list A) (e : number) :
  length (slice0 xs e) = sliceEnd (length xs) e.
Proof.
  unfold slice0. rewrite length_take. pose proof (sliceEnd_le_length (length xs) e). lia.
Qed.

Lemma num_leb_trans_ofZ (a : Z) (x y : number) :
  num_leb (ofZ a) x = true -> num_leb x y = true -> num_leb (ofZ a) y = true.
Proof.
  destruct x as [| |p|], y as [| |q|]; simpl; try done.
  rewrite !Qle_bool_iff. apply Qle_trans.
Qed.

(* ===================================================================== *)
(** ** Snippet truncation *)
(* ===================================================================== *)

Lemma js_length (s : string) : length (js s) = String.length s.
Proof.
  unfold js. rewrite length_map. induction s; simpl; auto.
Qed.

(** C5, as the code has it. For every whole cap [n] of at least 3
    characters (a configured cap lies between 50 and 500): a text of at
    most [n] characters is returned unchanged, and a longer one becomes
    its first [n - 3] characters followed by the ellipsis, [n] characters
    in all; so a 200-character body under a 150-character cap gives
    exactly 150 characters ending in the ellipsis. *)
Theorem truncateSnippet_spec (text : jsstring) (n : Z) :
  3 <= n ->
  (jslength text <= n -> truncateSnippet text (ofZ n) = text)
  /\ (n < jslength text ->
      truncateSnippet text (ofZ n) = take (Z.to_nat (n - 3)) text ++ js "..."
      /\ jslength (truncateSnippet text (ofZ n)) = n)
  /\ (jslength text = 200 ->
      jslength (truncateSnippet text (ofZ 150)) = 150
      /\ exists body, truncateSnippet text (ofZ 150) = body ++ js "...").
Proof.
  intros Hn.
  assert (forall m, 3 <= m -> m < jslength text ->
            truncateSnippet text (ofZ m) = take (Z.to_nat (m - 3)) text ++ js "..."
            /\ jslength (truncateSnippet text (ofZ m)) = m) as Hlong.
  { intros m Hm Hlt. unfold truncateSnippet.
    assert (num_leb (ofZ (jslength text)) (ofZ m) = false) as ->
      by by apply num_leb_ofZ_false.
    assert (slice0 text (num_sub (ofZ m) (ofZ 3)) = take (Z.to_nat (m - 3)) text) as ->.
    { unfold slice0, sliceEnd, num_sub, ofZ.
      rewrite (Qtrunc_comp _ (inject_Z (m - 3))), Qtrunc_Z
        by (unfold Qminus; rewrite <- inject_Z_opp, <- inject_Z_plus; reflexivity).
      assert ((m - 3 <? 0) = false) as -> by lia.
      f_equal. unfold jslength in Hlt. lia. }
    split; [done|]. unfold jslength in *.
    rewrite length_app, length_take, js_length. simpl. lia. }
  split; [|split].
  - intros Hle. unfold truncateSnippet.
    by assert (num_leb (ofZ (jslength text)) (ofZ n) = true) as ->
      by by apply num_leb_ofZ.
  - by apply Hlong.
  - intros H200. destruct (Hlong 150) as [E L]; [lia | lia |].
    split; [done|]. eexists. exact E.
Qed.

Lemma truncateSnippet_spec_witness :
  3 <= 150
  /\ truncateSnippet (js "short") (ofZ 150) = js "short"
  /\ jslength (truncateSnippet (replicate 200 97%N) (ofZ 150)) = 150.
Proof.
  split; [lia|].
  destruct (truncateSnippet_spec (js "short") 150 ltac:(lia)) as (Hs & _ & _).
  destruct (truncateSnippet_spec (replicate 200 97%N) 150 ltac:(lia)) as (_ & _ & Hl).
  split.
  - apply Hs. vm_compute. discriminate.
  - apply Hl. reflexivity.
Defined.

(** C5 as stated fails for a cap below the length of the ellipsis, and
    for a cap that is not whole: under a cap of 2 the six-character text
    comes back longer than it was, and under the cap 150.5 (which the
    bounds 50 to 500 of the configuration admit) a 151-character text is
    cut to 150 characters. *)
Lemma truncateSnippet_cap_counterexample :
  (2 < jslength (js "abcdef")
   /\ truncateSnippet (js "abcdef") (ofZ 2) = js "abcde..."
   /\ jslength (truncateSnippet (js "abcdef") (ofZ 2)) = 8)
  /\ (num_leb (ofZ (jslength (replicate 151 97%N))) (Finite (301 # 2)) = false
      /\ jslength (truncateSnippet (replicate 151 97%N) (Finite (301 # 2))) = 150).
Proof. vm_compute. repeat split; congruence. Qed.

(* ===================================================================== *)
(** ** The rate limiter *)
(* ===================================================================== *)

Section RateLimiter.

Variable NumberToString : number -> jsstring.
Variable cfg : Config.

Local Abbreviation admission := (checkRateLimit NumberToString cfg).
Local Abbreviation secondMessage := (perSecondMessage NumberToString cfg).
Local Abbreviation monthMessage := (perMonthMessage NumberToString cfg).

(** A window that has not elapsed keeps its counter and its start; one
    that has elapsed restarts at [now] with a count of 0. *)
Lemma resetWindows_fields (now : Z) (rc : RequestCount) :
  let rc' := resetWindows now rc in
  (now - lastSecondReset rc <= ONE_SECOND_MS ->
     second rc' = second rc /\ lastSecondReset rc' = lastSecondReset rc)
  /\ (ONE_SECOND_MS < now - lastSecondReset rc ->
     second rc' = 0 /\ lastSecondReset rc' = now)
  /\ (now - lastMonthReset rc <= ONE_MONTH_MS ->
     month rc' = month rc /\ lastMonthReset rc' = lastMonthReset rc)
  /\ (ONE_MONTH_MS < now - lastMonthReset rc ->
     month rc' = 0 /\ lastMonthReset rc' = now).
Proof.
  unfold resetWindows, resetMonth, resetSecond. cbn zeta.
  destruct (ONE_SECOND_MS <? now - lastSecondReset rc) eqn:Es;
    cbn [lastMonthReset];
    destruct (ONE_MONTH_MS <? now - lastMonthReset rc) eqn:Em;
    cbn [second month lastSecondReset lastMonthReset];
    repeat split; lia.
Qed.

Lemma last_js_app (a : jsstring) (s : string) (c : N) :
  last (js s) = Some c -> last (a ++ js s) = Some c.
Proof.
  intros Hc. destruct (js s) as [|x l] eqn:E; [done|].
  by rewrite last_app, Hc.
Qed.

(** The two messages differ whatever the caps print as. *)
Lemma messages_distinct : secondMessage <> monthMessage.
Proof.
  unfold perSecondMessage, perMonthMessage. intros E.
  apply (f_equal last) in E. rewrite !app_assoc in E.
  rewrite (last_js_app _ " request(s) per second" 100%N) in E by reflexivity.
  rewrite (last_js_app _ " requests per month" 104%N) in E by reflexivity.
  discriminate E.
Qed.

(** C2. An admission check first resets the windows that have elapsed.
    If then the per-second count has reached its cap the check throws
    the per-second message, else if the monthly count has reached its
    cap it throws the monthly message; in both cases the counters stay
    as the reset left them and nothing is sent to the provider.
    Otherwise the call is admitted and both counters go up by one. The
    two messages are different. *)
Theorem checkRateLimit_spec (now : Z) (w : World) :
  let rc := resetWindows now (requestCount w) in
  let out := admission now w in
  providerCalls out.2 = providerCalls w
  /\ lastSecondReset (requestCount out.2) = lastSecondReset rc
  /\ lastMonthReset (requestCount out.2) = lastMonthReset rc
  /\ (num_geb (ofZ (second rc)) (perSecond (rateLimit cfg)) = true ->
      out.1 = inl (ErrorObject secondMessage)
      /\ second (requestCount out.2) = second rc
      /\ month (requestCount out.2) = month rc)
  /\ (num_geb (ofZ (second rc)) (perSecond (rateLimit cfg)) = false ->
      num_geb (ofZ (month rc)) (perMonth (rateLimit cfg)) = true ->
      out.1 = inl (ErrorObject monthMessage)
      /\ second (requestCount out.2) = second rc
      /\ month (requestCount out.2) = month rc)
  /\ (num_geb (ofZ (second rc)) (perSecond (rateLimit cfg)) = false ->
      num_geb (ofZ (month rc)) (perMonth (rateLimit cfg)) = false ->
      out.1 = inr ()
      /\ second (requestCount out.2) = second rc + 1
      /\ month (requestCount out.2) = month rc + 1)
  /\ secondMessage <> monthMessage.
Proof.
  cbn zeta. unfold checkRateLimit.
  destruct (num_geb (ofZ (second (resetWindows now (requestCount w)))) _) eqn:Es;
    [|destruct (num_geb (ofZ (month (resetWindows now (requestCount w)))) _) eqn:Em];
    cbn; repeat split; try done; apply messages_distinct.
Qed.

End RateLimiter.

(* ===================================================================== *)
(** ** Parameter translation *)
(* ===================================================================== *)

(** C8. The strings "day", "week", "month", "year" and "all" are read as
    the five time ranges, and an absent [time] takes the default "all".
    Day, week, month and year are translated to the provider's constant
    of the same name and stored under the key [time] of the options of a
    web or a news request; for "all" the function returns [undefined]
    and the options have no key [time] at all. *)
Theorem time_range_translation (safeSearch : SafeSearch) (region : jsstring) :
  map (fun v => default All (asTime v))
    [ VString (js "day"); VString (js "week"); VString (js "month");
      VString (js "year"); VString (js "all"); VUndefined ]
  = [ Day; Week; Month; Year; All; All ]
  /\ getTimeType Day = Some DDG.DAY
  /\ getTimeType Week = Some DDG.WEEK
  /\ getTimeType Month = Some DDG.MONTH
  /\ getTimeType Year = Some DDG.YEAR
  /\ getTimeType All = None
  /\ (forall time t, getTimeType time = Some t ->
        webOptions safeSearch region time !! js "time" = Some (DDG.OTime t)
        /\ newsOptions safeSearch time !! js "time" = Some (DDG.OTime t))
  /\ webOptions safeSearch region All !! js "time" = None
  /\ newsOptions safeSearch All !! js "time" = None.
Proof.
  repeat split; try reflexivity;
    match goal with E : getTimeType _ = Some _ |- _ =>
      unfold webOptions, newsOptions; rewrite E; apply lookup_insert_eq
    end.
Qed.

(** The other two keys of the options are always there. *)
Lemma webOptions_keys (safeSearch : SafeSearch) (region : jsstring) (time : TimeRange) :
  webOptions safeSearch region time !! js "safeSearch"
    = Some (DDG.OSafeSearch (getSafeSearchType safeSearch))
  /\ webOptions safeSearch region time !! js "region" = Some (DDG.ORegion region).
Proof. by destruct time. Qed.

(* ===================================================================== *)
(** ** Configuration resolution *)
(* ===================================================================== *)

Section ConfigurationFacts.

Variable StringToNumber : jsstring -> number.

Lemma zCoerceNumber_bounds lo hi dflt v n :
  zCoerceNumber StringToNumber lo hi dflt v = Some n ->
  (v = None /\ n = dflt)
  \/ (exists s, v = Some s /\ n = StringToNumber s
                /\ num_geb n lo = true /\ num_leb n hi = true).
Proof.
  unfold zCoerceNumber. destruct v as [s|]; [|intros [= <-]; by left].
  intros Hn. right. exists s.
  destruct (StringToNumber s); [done|..];
    (destruct (_ && _) eqn:E; [|done]); apply andb_prop in E as [??];
    injection Hn as <-; done.
Qed.

(** The keys read through the schema fail fast: a value that is set
    and does not coerce to a number within the bounds stops the
    resolution, and a value that passes is taken as it is. *)
Lemma CONFIG_schema_keys env cfg :
  CONFIG StringToNumber env = Some cfg ->
  num_leb (ofZ 1) (defaultResults (search cfg)) = true
  /\ num_leb (defaultResults (search cfg)) (ofZ 20) = true
  /\ num_leb (ofZ 50) (maxSnippetLength (search cfg)) = true
  /\ num_leb (maxSnippetLength (search cfg)) (ofZ 500) = true
  /\ maxQueryLength (search cfg) = ofZ 400
  /\ maxResults (search cfg) = ofZ 20.
Proof.
  unfold CONFIG, EnvConfigSchema_parse. intros Hc.
  destruct (zCoerceNumber _ _ _ _ (env !! js "DDG_MAX_RESULTS")) as [r|] eqn:Er; [|done].
  destruct (zCoerceNumber _ _ _ _ (env !! js "DDG_MAX_SNIPPET_LENGTH")) as [l|] eqn:El; [|done].
  destruct (zOutputFormat _) as [f|]; [|done].
  injection Hc as <-. cbn.
  apply zCoerceNumber_bounds in Er as [[_ ->]|(s & _ & _ & ? & ?)];
    apply zCoerceNumber_bounds in El as [[_ ->]|(s' & _ & _ & ? & ?)]; done.
Qed.

(** The rate caps are whatever [parseInt] makes of the variables. *)
Lemma CONFIG_rate_caps env cfg :
  CONFIG StringToNumber env = Some cfg ->
  perSecond (rateLimit cfg)
    = parseInt10 (default (js "1") (env !! js "RATE_LIMIT_PER_SECOND"))
  /\ perMonth (rateLimit cfg)
    = parseInt10 (default (js "15000") (env !! js "RATE_LIMIT_PER_MONTH")).
Proof.
  unfold CONFIG. destruct (EnvConfigSchema_parse _ _); [|done].
  by intros [= <-].
Qed.

Lemma parseInt10_integer s : parseInt10 s = NaN \/ exists z, parseInt10 s = ofZ z.
Proof.
  unfold parseInt10.
  destruct (match trimStart s with
            | [] => (1, trimStart s)
            | c :: r => if (c =? 45)%N then (-1, r)
                        else if (c =? 43)%N then (1, r) else (1, trimStart s)
            end) as [sign s2].
  destruct (digitsPrefix s2); [by left | right; eauto].
Qed.

(** C9, at RATE_LIMIT_PER_SECOND=abc and RATE_LIMIT_PER_MONTH=-5:
    resolution succeeds with a per-second cap of [NaN] and a negative
    monthly cap, where the claim wants it to fail. *)
Theorem CONFIG_rate_caps_unchecked :
  exists cfg,
    CONFIG StringToNumber
      {[ js "RATE_LIMIT_PER_SECOND" := js "abc";
         js "RATE_LIMIT_PER_MONTH" := js "-5" ]} = Some cfg
    /\ perSecond (rateLimit cfg) = NaN
    /\ perMonth (rateLimit cfg) = ofZ (-5).
Proof.
  eexists. split; [vm_compute; reflexivity|]. by vm_compute.
Qed.

(** The same malformed text under a key of the schema stops the
    resolution. *)
Lemma CONFIG_schema_rejects_NaN :
  StringToNumber (js "abc") = NaN ->
  CONFIG StringToNumber {[ js "DDG_MAX_RESULTS" := js "abc" ]} = None.
Proof.
  intros E. unfold CONFIG, EnvConfigSchema_parse.
  rewrite lookup_singleton_eq. cbn in *. by rewrite E.
Qed.

End ConfigurationFacts.

(* ===================================================================== *)
(** ** The request handler *)
(* ===================================================================== *)

Lemma trimStart_whitespace (q : jsstring) :
  forallb isWhiteSpace q = true -> trimStart q = [].
Proof.
  induction q as [|c q IH]; simpl; [done|].
  intros [Hc Hq]%andb_prop. rewrite Hc. by apply IH.
Qed.

Lemma trim_whitespace (q : jsstring) :
  forallb isWhiteSpace q = true -> trim q = [].
Proof. intros Hq. unfold trim. by rewrite trimStart_whitespace. Qed.

Section HandlerFacts.

Variable NumberToString : number -> jsstring.
Variable toLocaleDateString : number -> jsstring.
Context `{URLApi}.
Variable cfg : Config.
Variable DDG_search :
  jsstring -> gmap jsstring DDG.OptionValue -> thrown + DDG.Results DDG.SearchResult.
Variable DDG_searchNews :
  jsstring -> gmap jsstring DDG.OptionValue -> thrown + DDG.Results DDG.NewsResult.

Local Abbreviation handler :=
  (callToolHandler NumberToString toLocaleDateString cfg DDG_search DDG_searchNews).
Local Abbreviation admission := (checkRateLimit NumberToString cfg).

(** What a web search does, step by step. *)
Lemma performWebSearch_run (a : Web.Args) (now : Z) (w : World) :
  let query := Web.query a in
  let options :=
    webOptions (default (defaultSafeSearch (search cfg)) (Web.safeSearch a))
      (default (defaultRegion (search cfg)) (Web.region a))
      (default All (Web.time a)) in
  let eff := effectiveLimit cfg (Web.limit a) (Web.count a) in
  performWebSearch NumberToString cfg DDG_search a now w =
  match admission now w with
  | (inl e, w1) => (inl e, w1)
  | (inr _, w1) =>
      (match DDG_search query options with
       | inl e => inl e
       | inr r =>
           inr (if DDG.noResults r then noWebResultsMessage query
                else renderWeb NumberToString cfg query eff
                       (webResults cfg eff (DDG.results r)))
       end, logCall (DDG.search query options) w1)
  end.
Proof.
  cbn zeta. unfold performWebSearch, bind, callSearch, logCall.
  destruct (admission now w) as [[e|[]] w1]; [done|].
  destruct (DDG_search _ _) as [e|r]; [done|].
  by destruct (DDG.noResults r).
Qed.

Lemma performNewsSearch_run (a : News.Args) (now : Z) (w : World) :
  let query := News.query a in
  let options :=
    newsOptions (default (defaultSafeSearch (search cfg)) (News.safeSearch a))
      (default All (News.time a)) in
  let eff := effectiveLimit cfg (News.limit a) (News.count a) in
  performNewsSearch NumberToString toLocaleDateString cfg DDG_searchNews a now w =
  match admission now w with
  | (inl e, w1) => (inl e, w1)
  | (inr _, w1) =>
      (match DDG_searchNews query options with
       | inl e => inl e
       | inr r =>
           inr (if DDG.noResults r then noNewsResultsMessage query
                else renderNews NumberToString cfg query eff
                       (newsResults toLocaleDateString cfg eff (DDG.results r)))
       end, logCall (DDG.searchNews query options) w1)
  end.
Proof.
  cbn zeta. unfold performNewsSearch, bind, callSearchNews, logCall.
  destruct (admission now w) as [[e|[]] w1]; [done|].
  destruct (DDG_searchNews _ _) as [e|r]; [done|].
  by destruct (DDG.noResults r).
Qed.

(** The handler on arguments that pass the guard of the web tool. *)
Lemma handler_web (args : value) (now : Z) (w : World) :
  truthy args = true -> isWebSearchArgs cfg args = true ->
  handler (js "duckduckgo_web_search") args now w =
  match performWebSearch NumberToString cfg DDG_search (asWebSearchArgs args) now w with
  | (inr results, w') => ({| text := results; isError := false |}, w')
  | (inl e, w') => ({| text := js "Error: " ++ errorText e; isError := true |}, w')
  end.
Proof.
  intros Ht Hv. unfold callToolHandler, dispatch. rewrite Ht, Hv. cbn [negb].
  change (jseqb (js "duckduckgo_web_search") (js "duckduckgo_web_search")) with true.
  cbv iota. unfold bind.
  by destruct (performWebSearch _ _ _ _ _ _) as [[e|r] w'].
Qed.

Lemma handler_news (args : value) (now : Z) (w : World) :
  truthy args = true -> isNewsSearchArgs cfg args = true ->
  handler (js "duckduckgo_news_search") args now w =
  match performNewsSearch NumberToString toLocaleDateString cfg DDG_searchNews
          (asNewsSearchArgs args) now w with
  | (inr results, w') => ({| text := results; isError := false |}, w')
  | (inl e, w') => ({| text := js "Error: " ++ errorText e; isError := true |}, w')
  end.
Proof.
  intros Ht Hv. unfold callToolHandler, dispatch. rewrite Ht, Hv. cbn [negb].
  change (jseqb (js "duckduckgo_news_search") (js "duckduckgo_web_search")) with false.
  change (jseqb (js "duckduckgo_news_search") (js "duckduckgo_news_search")) with true.
  cbv iota. unfold bind.
  by destruct (performNewsSearch _ _ _ _ _ _ _) as [[e|r] w'].
Qed.

(** The handler on arguments the guard of the tool refuses: an error
    result, and the world as it was. *)
Lemma handler_web_invalid (fields : gmap jsstring value) (now : Z) (w : World) :
  isWebSearchArgs cfg (VObject fields) = false ->
  handler (js "duckduckgo_web_search") (VObject fields) now w =
  ({| text := js "Error: " ++ invalidArgumentsMessage NumberToString cfg "duckduckgo_web_search";
      isError := true |}, w).
Proof.
  intros Hv. unfold callToolHandler, dispatch. cbn [truthy negb].
  change (jseqb (js "duckduckgo_web_search") (js "duckduckgo_web_search")) with true.
  cbv iota. by rewrite Hv.
Qed.

Lemma handler_news_invalid (fields : gmap jsstring value) (now : Z) (w : World) :
  isNewsSearchArgs cfg (VObject fields) = false ->
  handler (js "duckduckgo_news_search") (VObject fields) now w =
  ({| text := js "Error: " ++ invalidArgumentsMessage NumberToString cfg "duckduckgo_news_search";
      isError := true |}, w).
Proof.
  intros Hv. unfold callToolHandler, dispatch. cbn [truthy negb].
  change (jseqb (js "duckduckgo_news_search") (js "duckduckgo_web_search")) with false.
  change (jseqb (js "duckduckgo_news_search") (js "duckduckgo_news_search")) with true.
  cbv iota. by rewrite Hv.
Qed.

(** C10. A call without arguments, or with [null] for arguments, gets
    an error result whose text carries "No arguments provided", for
    every tool name; the handler returns it as an ordinary result and
    leaves the counters and the provider untouched. *)
Theorem handler_no_arguments (name : jsstring) (now : Z) (w : World) :
  handler name VUndefined now w
    = ({| text := js "Error: No arguments provided"; isError := true |}, w)
  /\ handler name VNull now w
    = ({| text := js "Error: No arguments provided"; isError := true |}, w).
Proof. split; reflexivity. Qed.

Lemma isWebSearchArgs_object (args : value) :
  isWebSearchArgs cfg args = true ->
  exists fields, args = VObject fields
    /\ isValidQuery cfg (getField fields "query") = true
    /\ isValidCount cfg (getField fields "count") = true
    /\ isValidLimit cfg (getField fields "limit") = true.
Proof.
  destruct args as [| | | | |fields]; try done. simpl.
  rewrite !andb_true_iff. intros (((((?&?)&?)&?)&?)&?). eauto.
Qed.

Lemma isNewsSearchArgs_object (args : value) :
  isNewsSearchArgs cfg args = true ->
  exists fields, args = VObject fields
    /\ isValidQuery cfg (getField fields "query") = true
    /\ isValidCount cfg (getField fields "count") = true
    /\ isValidLimit cfg (getField fields "limit") = true.
Proof.
  destruct args as [| | | | |fields]; try done. simpl.
  rewrite !andb_true_iff. intros ((((?&?)&?)&?)&?). eauto.
Qed.

(** C6, as the code has it. When the provider signals [noResults],
    an admitted web search answers [No results for "query"] and an
    admitted news search [No news for "query"], as an ordinary result,
    whatever the output format of the configuration. *)
Theorem no_results_message (args : value) (now : Z) (w : World) :
  (admission now w).1 = inr () ->
  (forall reply,
     isWebSearchArgs cfg args = true ->
     (let a := asWebSearchArgs args in
      DDG_search (Web.query a)
        (webOptions (default (defaultSafeSearch (search cfg)) (Web.safeSearch a))
           (default (defaultRegion (search cfg)) (Web.region a))
           (default All (Web.time a))) = inr reply) ->
     DDG.noResults reply = true ->
     (handler (js "duckduckgo_web_search") args now w).1
     = {| text := js "No results for " ++ dquote
                  ++ asString (getField (fieldsOf args) "query") ++ dquote;
          isError := false |})
  /\ (forall reply,
     isNewsSearchArgs cfg args = true ->
     (let a := asNewsSearchArgs args in
      DDG_searchNews (News.query a)
        (newsOptions (default (defaultSafeSearch (search cfg)) (News.safeSearch a))
           (default All (News.time a))) = inr reply) ->
     DDG.noResults reply = true ->
     (handler (js "duckduckgo_news_search") args now w).1
     = {| text := js "No news for " ++ dquote
                  ++ asString (getField (fieldsOf args) "query") ++ dquote;
          isError := false |}).
Proof.
  intros Hadm. split; intros reply Hv Hreply Hno.
  - destruct (isWebSearchArgs_object _ Hv) as (fields & -> & _).
    rewrite handler_web, performWebSearch_run by done.
    destruct (admission now w) as [[e|[]] w1]; [done|].
    cbn zeta in Hreply. by rewrite Hreply, Hno.
  - destruct (isNewsSearchArgs_object _ Hv) as (fields & -> & _).
    rewrite handler_news, performNewsSearch_run by done.
    destruct (admission now w) as [[e|[]] w1]; [done|].
    cbn zeta in Hreply. by rewrite Hreply, Hno.
Qed.

Lemma queryRefused_invalid (v : value) :
  maxQueryLength (search cfg) = ofZ 400 ->
  queryRefused v -> isValidQuery cfg v = false.
Proof.
  intros Hmax. destruct v as [| | | |q|]; try done. simpl. rewrite Hmax.
  intros [Hws|Hlong].
  - by rewrite trim_whitespace.
  - apply andb_false_iff. right. by apply num_leb_ofZ_false.
Qed.

Lemma countRefused_invalid (v : value) :
  maxResults (search cfg) = ofZ 20 ->
  countRefused v -> isValidCount cfg v = false /\ isValidLimit cfg v = false.
Proof.
  intros Hmax. destruct v as [| | |n| |]; try done. simpl. by rewrite Hmax.
Qed.

(** C3, as the code has it. Under a resolved configuration, an
    argument object whose [query] is not a string, is empty or all
    white space, or is longer than 400 characters, or whose [limit] or
    [count] is present and is not a number between 1 and 20, is refused
    by both guards; the handler of either tool answers with the
    invalid-arguments error and the world is as before: the counters
    are untouched and nothing was sent to the provider. *)
Theorem invalid_arguments_rejected (StringToNumber : jsstring -> number)
    (env : Env) (fields : gmap jsstring value) (now : Z) (w : World) :
  CONFIG StringToNumber env = Some cfg ->
  queryRefused (getField fields "query")
  \/ countRefused (getField fields "limit")
  \/ countRefused (getField fields "count") ->
  isWebSearchArgs cfg (VObject fields) = false
  /\ isNewsSearchArgs cfg (VObject fields) = false
  /\ handler (js "duckduckgo_web_search") (VObject fields) now w
     = ({| text := js "Error: "
                   ++ invalidArgumentsMessage NumberToString cfg "duckduckgo_web_search";
           isError := true |}, w)
  /\ handler (js "duckduckgo_news_search") (VObject fields) now w
     = ({| text := js "Error: "
                   ++ invalidArgumentsMessage NumberToString cfg "duckduckgo_news_search";
           isError := true |}, w).
Proof.
  intros Hcfg Hbad.
  destruct (CONFIG_schema_keys _ _ _ Hcfg) as (_ & _ & _ & _ & Hq & Hr).
  assert (isValidQuery cfg (getField fields "query")
          && isValidCount cfg (getField fields "count")
          && isValidLimit cfg (getField fields "limit") = false) as Hinv.
  { destruct Hbad as [Hb|[Hb|Hb]].
    - by rewrite (queryRefused_invalid _ Hq Hb).
    - destruct (countRefused_invalid _ Hr Hb) as [_ ->]. apply andb_false_r.
    - destruct (countRefused_invalid _ Hr Hb) as [-> _].
      by rewrite andb_false_r. }
  assert (isWebSearchArgs cfg (VObject fields) = false) as Hweb
    by (simpl; by rewrite Hinv).
  assert (isNewsSearchArgs cfg (VObject fields) = false) as Hnews
    by (simpl; by rewrite Hinv).
  repeat split; try done.
  - by apply handler_web_invalid.
  - by apply handler_news_invalid.
Qed.

Lemma validCount_cases (v : value) :
  maxResults (search cfg) = ofZ 20 ->
  isValidCount cfg v = true ->
  v = VUndefined
  \/ exists n, v = VNumber n /\ num_leb (ofZ 1) n = true /\ num_leb n (ofZ 20) = true.
Proof.
  intros Hmax. destruct v as [| | |n| |]; try done; [by left|].
  simpl. rewrite Hmax. intros [??]%andb_prop. right. eauto.
Qed.

(** The precedence of [limit] over [count] over the default, read off
    the fields of a request, and the lower bound that validation and
    the schema give the outcome. *)
Lemma effectiveLimit_fields (StringToNumber : jsstring -> number) (env : Env)
    (fields : gmap jsstring value) :
  CONFIG StringToNumber env = Some cfg ->
  isValidCount cfg (getField fields "count") = true ->
  isValidLimit cfg (getField fields "limit") = true ->
  let eff := effectiveLimit cfg (asNumber (getField fields "limit"))
               (asNumber (getField fields "count")) in
  match getField fields "limit", getField fields "count" with
  | VNumber l, _ => eff = l
  | VUndefined, VNumber c => eff = c
  | VUndefined, VUndefined => eff = defaultResults (search cfg)
  | _, _ => False
  end
  /\ num_leb (ofZ 1) eff = true.
Proof.
  intros Hcfg Hc Hl.
  destruct (CONFIG_schema_keys _ _ _ Hcfg) as (Hd & _ & _ & _ & _ & Hr).
  apply (validCount_cases _ Hr) in Hc. apply (validCount_cases _ Hr) in Hl.
  destruct Hl as [->|(l & -> & Hl1 & _)]; [|done].
  destruct Hc as [->|(c & -> & Hc1 & _)]; done.
Qed.

Lemma webResults_length (eff : number) (raw : list DDG.SearchResult) :
  length (webResults cfg eff raw) = sliceEnd (length raw) eff.
Proof.
  unfold webResults. cbn zeta.
  destruct (stripEmoji (search cfg)); rewrite ?length_map; apply slice0_length.
Qed.

Lemma newsResults_length (eff : number) (raw : list DDG.NewsResult) :
  length (newsResults toLocaleDateString cfg eff raw) = sliceEnd (length raw) eff.
Proof.
  unfold newsResults. cbn zeta.
  destruct (stripEmoji (search cfg)); rewrite ?length_map; apply slice0_length.
Qed.

Lemma sliceEnd_bounds (len : nat) (eff : number) :
  num_leb (ofZ 1) eff = true ->
  num_leb (ofZ (Z.of_nat (sliceEnd len eff))) eff = true
  /\ (sliceEnd len eff <= len)%nat.
Proof.
  intros H1. split; [|apply sliceEnd_le_length].
  apply sliceEnd_le_end. apply (num_leb_trans_ofZ 0 (ofZ 1)); [|done].
  by apply num_leb_ofZ.
Qed.

(** C1. Under a resolved configuration, for a request that passed the
    guard of its tool: the effective limit is [limit] when the request
    has one, else [count] when it has one, else the configured default;
    and when the call is admitted and the provider replies with
    results, the text returned renders the normalised results of that
    reply, which are no more than the effective limit and no more than
    the provider gave. *)
Theorem effective_limit_bounds_results (StringToNumber : jsstring -> number)
    (env : Env) (args : value) (now : Z) (w : World) :
  CONFIG StringToNumber env = Some cfg ->
  (admission now w).1 = inr () ->
  (isWebSearchArgs cfg args = true ->
   let a := asWebSearchArgs args in
   let eff := effectiveLimit cfg (Web.limit a) (Web.count a) in
   match getField (fieldsOf args) "limit", getField (fieldsOf args) "count" with
   | VNumber l, _ => eff = l
   | VUndefined, VNumber c => eff = c
   | VUndefined, VUndefined => eff = defaultResults (search cfg)
   | _, _ => False
   end
   /\ forall reply,
     DDG_search (Web.query a)
       (webOptions (default (defaultSafeSearch (search cfg)) (Web.safeSearch a))
          (default (defaultRegion (search cfg)) (Web.region a))
          (default All (Web.time a))) = inr reply ->
     DDG.noResults reply = false ->
     let results := webResults cfg eff (DDG.results reply) in
     (handler (js "duckduckgo_web_search") args now w).1
     = {| text := renderWeb NumberToString cfg (Web.query a) eff results;
          isError := false |}
     /\ num_leb (ofZ (Z.of_nat (length results))) eff = true
     /\ (length results <= length (DDG.results reply))%nat)
  /\ (isNewsSearchArgs cfg args = true ->
   let a := asNewsSearchArgs args in
   let eff := effectiveLimit cfg (News.limit a) (News.count a) in
   match getField (fieldsOf args) "limit", getField (fieldsOf args) "count" with
   | VNumber l, _ => eff = l
   | VUndefined, VNumber c => eff = c
   | VUndefined, VUndefined => eff = defaultResults (search cfg)
   | _, _ => False
   end
   /\ forall reply,
     DDG_searchNews (News.query a)
       (newsOptions (default (defaultSafeSearch (search cfg)) (News.safeSearch a))
          (default All (News.time a))) = inr reply ->
     DDG.noResults reply = false ->
     let results := newsResults toLocaleDateString cfg eff (DDG.results reply) in
     (handler (js "duckduckgo_news_search") args now w).1
     = {| text := renderNews NumberToString cfg (News.query a) eff results;
          isError := false |}
     /\ num_leb (ofZ (Z.of_nat (length results))) eff = true
     /\ (length results <= length (DDG.results reply))%nat).
Proof.
  intros Hcfg Hadm. split; intros Hv.
  - destruct (isWebSearchArgs_object _ Hv) as (fields & -> & _ & Hc & Hl).
    destruct (effectiveLimit_fields _ _ fields Hcfg Hc Hl) as [Hprec H1].
    cbn zeta. split; [exact Hprec|]. intros reply Hreply Hno.
    rewrite handler_web, performWebSearch_run by done.
    destruct (admission now w) as [[e|[]] w1]; [done|].
    rewrite Hreply, Hno, webResults_length. split; [done|].
    by apply sliceEnd_bounds.
  - destruct (isNewsSearchArgs_object _ Hv) as (fields & -> & _ & Hc & Hl).
    destruct (effectiveLimit_fields _ _ fields Hcfg Hc Hl) as [Hprec H1].
    cbn zeta. split; [exact Hprec|]. intros reply Hreply Hno.
    rewrite handler_news, performNewsSearch_run by done.
    destruct (admission now w) as [[e|[]] w1]; [done|].
    rewrite Hreply, Hno, newsResults_length. split; [done|].
    by apply sliceEnd_bounds.
Qed.

(** Whatever the request, the counters after the handler are those
    before it or those an admission check left. *)
Lemma handler_requestCount (name : jsstring) (args : value) (now : Z) (w : World) :
  requestCount (handler name args now w).2 = requestCount w
  \/ requestCount (handler name args now w).2 = requestCount (admission now w).2.
Proof.
  unfold callToolHandler, dispatch.
  destruct (truthy args); cbn [negb]; [|by left].
  destruct (jseqb name (js "duckduckgo_web_search")).
  { destruct (isWebSearchArgs cfg args); cbn [negb]; [|by left].
    unfold bind. rewrite performWebSearch_run.
    destruct (admission now w) as [[e|[]] w1]; [by right|].
    destruct (DDG_search _ _) as [e|r]; by right. }
  destruct (jseqb name (js "duckduckgo_news_search")); [|by left].
  destruct (isNewsSearchArgs cfg args); cbn [negb]; [|by left].
  unfold bind. rewrite performNewsSearch_run.
  destruct (admission now w) as [[e|[]] w1]; [by right|].
  destruct (DDG_searchNews _ _) as [e|r]; by right.
Qed.

End HandlerFacts.

(* ===================================================================== *)
(** ** URL sanitisation *)
(* ===================================================================== *)

Section CleanUrl.

Context `{URLApi}.

Lemma filter_names_cons (p : jsstring) (ps : list jsstring)
    (l : list (jsstring * jsstring)) :
  filter (fun kv => kv.1 ∉ ps) (filter (fun kv => kv.1 <> p) l)
  = filter (fun kv => kv.1 ∉ p :: ps) l.
Proof.
  induction l as [|kv l IH]; [done|].
  rewrite (filter_cons (fun kv => kv.1 <> p)), (filter_cons (fun kv => kv.1 ∉ p :: ps)).
  destruct (decide (kv.1 <> p)) as [Hne|Heq].
  - rewrite filter_cons. destruct (decide (kv.1 ∉ ps)) as [Hn|Hi].
    + rewrite decide_True by (rewrite not_elem_of_cons; done). by f_equal.
    + rewrite decide_False by (rewrite not_elem_of_cons; tauto). done.
  - rewrite decide_False by (rewrite not_elem_of_cons; tauto). done.
Qed.

(** Deleting a list of names one after the other keeps exactly the
    pairs under other names, in their order. *)
Lemma delete_all_params (ps : list jsstring) (u : URL) :
  searchParams (foldl (fun u p => searchParams_delete p u) u ps)
  = filter (fun kv => kv.1 ∉ ps) (searchParams u).
Proof.
  revert u. induction ps as [|p ps IH]; intros u; simpl.
  - induction (searchParams u) as [|kv l IHl]; [done|].
    rewrite filter_cons_True by apply not_elem_of_nil. by f_equal.
  - by rewrite IH, searchParams_delete_spec, filter_names_cons.
Qed.

(** On a URL that a delete has already rewritten, deleting names it
    does not have changes nothing. *)
Lemma delete_all_absent (ps : list jsstring) (q : jsstring) (u : URL) :
  (forall p, p ∈ ps -> p ∉ (searchParams (searchParams_delete q u)).*1) ->
  foldl (fun u p => searchParams_delete p u) (searchParams_delete q u) ps
  = searchParams_delete q u.
Proof.
  induction ps as [|p ps IH]; intros Hps; simpl; [done|].
  rewrite searchParams_delete_absent by (apply Hps; left).
  apply IH. intros p' Hp'. apply Hps. by right.
Qed.

Lemma filtered_names_absent (ps : list jsstring) (l : list (jsstring * jsstring)) p :
  p ∈ ps -> p ∉ (filter (fun kv => kv.1 ∉ ps) l).*1.
Proof.
  intros Hp [kv [-> Hkv]]%list_elem_of_fmap.
  apply list_elem_of_filter in Hkv as [Hn _]. done.
Qed.

Lemma deleteTracking_params (u : URL) :
  searchParams (deleteTracking u)
  = filter (fun kv => kv.1 ∉ trackingParams) (searchParams u).
Proof. apply delete_all_params. Qed.

Lemma deleteTracking_again (u : URL) :
  deleteTracking (deleteTracking u) = deleteTracking u.
Proof.
  pose proof (deleteTracking_params u) as Hpar.
  assert (exists u8, deleteTracking u = searchParams_delete (js "ref") u8)
    as [u8 E] by (eexists; reflexivity).
  rewrite E in *. unfold deleteTracking.
  apply delete_all_absent. intros p Hp. rewrite Hpar.
  by apply filtered_names_absent.
Qed.

(** C4. [cleanUrl] returns a string that does not parse as it is. For
    one that parses, it returns the serialisation of a URL whose query
    pairs are those of the input that are not named utm_source,
    utm_medium, utm_campaign, utm_term, utm_content, fbclid, gclid,
    msclkid or ref, in their order. Cleaning twice is cleaning once.
    And [https://x.com/a?utm_source=y&id=1] is cleaned to
    [https://x.com/a?id=1]. *)
Theorem cleanUrl_spec (url : jsstring) :
  trackingParams
    = [ js "utm_source"; js "utm_medium"; js "utm_campaign"; js "utm_term";
        js "utm_content"; js "fbclid"; js "gclid"; js "msclkid"; js "ref" ]
  /\ (newURL url = None -> cleanUrl url = url)
  /\ (forall u, newURL url = Some u ->
        exists u', cleanUrl url = toString u'
          /\ newURL (cleanUrl url) = Some u'
          /\ searchParams u'
             = filter (fun kv => kv.1 ∉ trackingParams) (searchParams u))
  /\ cleanUrl (cleanUrl url) = cleanUrl url
  /\ cleanUrl (H := PlainURL.api) (js "https://x.com/a?utm_source=y&id=1")
     = js "https://x.com/a?id=1".
Proof.
  split; [reflexivity|]. split; [|split; [|split]].
  - unfold cleanUrl. by intros ->.
  - intros u Hu. exists (deleteTracking u). unfold cleanUrl. rewrite Hu.
    split; [done|]. split.
    { apply newURL_toString. }
    exact (deleteTracking_params u).
  - unfold cleanUrl. destruct (newURL url) as [u|] eqn:Hu.
    + by rewrite newURL_toString, deleteTracking_again.
    + by rewrite Hu.
  - vm_compute. reflexivity.
Qed.

End CleanUrl.

(** The theorem at the plain-address implementation: a cleaned address,
    one without tracking parameters, and one that does not parse. *)
Lemma cleanUrl_spec_witness :
  cleanUrl (H := PlainURL.api) (js "https://x.com/a?utm_source=y&id=1")
    = js "https://x.com/a?id=1"
  /\ cleanUrl (H := PlainURL.api)
       (cleanUrl (H := PlainURL.api) (js "https://x.com/a?b=1&ref=z&c=2&fbclid=q"))
     = js "https://x.com/a?b=1&c=2"
  /\ cleanUrl (H := PlainURL.api) (js "not a url") = js "not a url".
Proof.
  destruct (cleanUrl_spec (H := PlainURL.api) (js "https://x.com/a?b=1&ref=z&c=2&fbclid=q"))
    as (_ & _ & _ & Hidem & Hex).
  destruct (cleanUrl_spec (H := PlainURL.api) (js "not a url")) as (_ & Hfail & _).
  split; [exact Hex|]. split.
  - rewrite Hidem. vm_compute. reflexivity.
  - apply Hfail. vm_compute. reflexivity.
Defined.

(* ===================================================================== *)
(** ** The counters and the caps *)
(* ===================================================================== *)

Section Invariant.

Variable NumberToString : number -> jsstring.
Variable toLocaleDateString : number -> jsstring.
Context `{URLApi}.

Lemma admission_within_caps (cfg : Config) (cs cm : Z) (now : Z) (w : World) :
  perSecond (rateLimit cfg) = ofZ cs -> perMonth (rateLimit cfg) = ofZ cm ->
  0 <= cs -> 0 <= cm ->
  second (requestCount w) <= cs /\ month (requestCount w) <= cm ->
  second (requestCount (checkRateLimit NumberToString cfg now w).2) <= cs
  /\ month (requestCount (checkRateLimit NumberToString cfg now w).2) <= cm.
Proof.
  intros Hs Hm Hcs Hcm [Hsec Hmon]. unfold checkRateLimit. rewrite Hs, Hm.
  set (rc := resetWindows now (requestCount w)).
  assert (second rc <= cs /\ month rc <= cm) as [Hsec' Hmon'].
  { unfold rc, resetWindows, resetMonth, resetSecond.
    destruct (ONE_SECOND_MS <? now - lastSecondReset (requestCount w));
      cbn [lastMonthReset];
      destruct (ONE_MONTH_MS <? now - lastMonthReset (requestCount w));
      cbn [second month]; lia. }
  unfold num_geb.
  destruct (num_leb (ofZ cs) (ofZ (second rc))) eqn:Es; [done|].
  destruct (num_leb (ofZ cm) (ofZ (month rc))) eqn:Em; [done|].
  apply num_leb_ofZ_false in Es, Em. cbn. lia.
Qed.

(** X21. With caps that are whole numbers from 0 upwards, as every
    sensible setting of the two environment variables gives, the counters
    never pass their caps: in every world the server reaches, through
    web searches, news searches or refused calls, the per-second count is
    at most the per-second cap and the monthly count at most the monthly
    cap. *)
Lemma rate_counters_within_caps (StringToNumber : jsstring -> number)
    (env : Env) (cfg : Config) (w : World) :
  CONFIG StringToNumber env = Some cfg ->
  num_leb (ofZ 0) (perSecond (rateLimit cfg)) = true ->
  num_leb (ofZ 0) (perMonth (rateLimit cfg)) = true ->
  reachable NumberToString toLocaleDateString cfg w ->
  num_leb (ofZ (second (requestCount w))) (perSecond (rateLimit cfg)) = true
  /\ num_leb (ofZ (month (requestCount w))) (perMonth (rateLimit cfg)) = true.
Proof.
  intros Hcfg Hs0 Hm0 Hreach.
  destruct (CONFIG_rate_caps _ _ _ Hcfg) as [Hs Hm].
  destruct (parseInt10_integer (default (js "1") (env !! js "RATE_LIMIT_PER_SECOND")))
    as [E|[cs E]]; rewrite E in Hs; rewrite Hs in *; [done|].
  destruct (parseInt10_integer (default (js "15000") (env !! js "RATE_LIMIT_PER_MONTH")))
    as [E'|[cm E']]; rewrite E' in Hm; rewrite Hm in *; [done|].
  apply num_leb_ofZ in Hs0, Hm0. rewrite !num_leb_ofZ.
  induction Hreach as [t1 t2|w search searchNews name args now Hw IH]; [simpl; lia|].
  destruct (handler_requestCount NumberToString toLocaleDateString cfg
              search searchNews name args now w) as [-> | ->]; [done|].
  by apply (admission_within_caps cfg cs cm).
Qed.

(** C7 at RATE_LIMIT_PER_SECOND=abc: the cap is [NaN], two web searches
    at the same clock reading are both admitted, and the world they
    leave has a per-second count of 2, which is not at most the cap.
    At RATE_LIMIT_PER_SECOND=-1 the count of the initial world, 0, is
    already above the cap. *)
Theorem rate_caps_unchecked_break_bound (StringToNumber : jsstring -> number) :
  (exists cfg,
     CONFIG StringToNumber {[ js "RATE_LIMIT_PER_SECOND" := js "abc" ]} = Some cfg
     /\ let args := VObject {[ js "query" := VString (js "x") ]} in
        let call :=
          callToolHandler NumberToString toLocaleDateString cfg
            providerNoResults providerNoResults (js "duckduckgo_web_search") args 0 in
        let w1 := (call (initialWorld 0 0)).2 in
        let w2 := (call w1).2 in
        reachable NumberToString toLocaleDateString cfg w2
        /\ isError (call (initialWorld 0 0)).1 = false
        /\ isError (call w1).1 = false
        /\ second (requestCount w2) = 2
        /\ num_leb (ofZ (second (requestCount w2))) (perSecond (rateLimit cfg)) = false)
  /\ (exists cfg,
     CONFIG StringToNumber {[ js "RATE_LIMIT_PER_SECOND" := js "-1" ]} = Some cfg
     /\ reachable NumberToString toLocaleDateString cfg (initialWorld 0 0)
     /\ num_leb (ofZ (second (requestCount (initialWorld 0 0))))
          (perSecond (rateLimit cfg)) = false).
Proof.
  split.
  - eexists. split; [vm_compute; reflexivity|]. cbn zeta.
    split; [do 2 apply reachable_call; apply reachable_start|].
    repeat split; vm_compute; reflexivity.
  - eexists. split; [vm_compute; reflexivity|].
    split; [apply reachable_start | vm_compute; reflexivity].
Qed.

End Invariant.

(* ===================================================================== *)
(** ** The server on concrete requests *)
(* ===================================================================== *)

Lemma CONFIG_default (StringToNumber : jsstring -> number) :
  CONFIG StringToNumber ∅ = Some defaultConfig.
Proof. reflexivity. Qed.

Lemma effective_limit_bounds_results_witness :
  let args := VObject {[ js "query" := VString (js "x"); js "limit" := VNumber (ofZ 2) ]} in
  CONFIG constantNaN ∅ = Some defaultConfig
  /\ (checkRateLimit integerToString defaultConfig 0 (initialWorld 0 0)).1 = inr ()
  /\ isWebSearchArgs defaultConfig args = true
  /\ (exampleHandler defaultConfig providerThree providerNoResults
        (js "duckduckgo_web_search") args 0 (initialWorld 0 0)).1
     = {| text :=
            js "Web:" ++ dquote ++ js "x" ++ dquote ++ js " (2/2)" ++ newline
            ++ js "[1] Title a | About a | x.com https://x.com/a?id=1" ++ newline
            ++ js "[2] Title b | About b | x.com https://x.com/b?id=1";
          isError := false |}.
Proof.
  cbn zeta.
  assert (CONFIG constantNaN ∅ = Some defaultConfig) as Hcfg by reflexivity.
  assert ((checkRateLimit integerToString defaultConfig 0 (initialWorld 0 0)).1 = inr ())
    as Hadm by reflexivity.
  assert (isWebSearchArgs defaultConfig
            (VObject {[ js "query" := VString (js "x"); js "limit" := VNumber (ofZ 2) ]})
          = true) as Hv by (vm_compute; reflexivity).
  split; [exact Hcfg|]. split; [exact Hadm|]. split; [exact Hv|].
  destruct (effective_limit_bounds_results (H := PlainURL.api) integerToString
              constantDate defaultConfig providerThree providerNoResults constantNaN ∅
              (VObject {[ js "query" := VString (js "x"); js "limit" := VNumber (ofZ 2) ]})
              0 (initialWorld 0 0) Hcfg Hadm) as [Hweb _].
  destruct (Hweb Hv) as [_ Hrun].
  destruct (Hrun {| DDG.noResults := false; DDG.results := threeResults |})
    as [Hout _]; [reflexivity | reflexivity |].
  unfold exampleHandler. rewrite Hout. vm_compute. reflexivity.
Defined.

Lemma no_results_message_witness :
  let args := VObject {[ js "query" := VString (js "x") ]} in
  (checkRateLimit integerToString defaultConfig 0 (initialWorld 0 0)).1 = inr ()
  /\ isWebSearchArgs defaultConfig args = true
  /\ (exampleHandler defaultConfig providerNoResults providerNoResults
        (js "duckduckgo_web_search") args 0 (initialWorld 0 0)).1
     = {| text := js "No results for " ++ dquote ++ js "x" ++ dquote; isError := false |}
  /\ (exampleHandler defaultConfig providerNoResults providerNoResults
        (js "duckduckgo_news_search") args 0 (initialWorld 0 0)).1
     = {| text := js "No news for " ++ dquote ++ js "x" ++ dquote; isError := false |}.
Proof.
  cbn zeta.
  assert ((checkRateLimit integerToString defaultConfig 0 (initialWorld 0 0)).1 = inr ())
    as Hadm by reflexivity.
  destruct (no_results_message (H := PlainURL.api) integerToString constantDate
              defaultConfig providerNoResults providerNoResults
              (VObject {[ js "query" := VString (js "x") ]}) 0 (initialWorld 0 0) Hadm)
    as [Hweb Hnews].
  split; [exact Hadm|]. split; [vm_compute; reflexivity|]. split.
  - unfold exampleHandler.
    rewrite (Hweb {| DDG.noResults := true; DDG.results := [] |});
      [vm_compute; reflexivity | vm_compute; reflexivity | reflexivity | reflexivity].
  - unfold exampleHandler.
    rewrite (Hnews {| DDG.noResults := true; DDG.results := [] |});
      [vm_compute; reflexivity | vm_compute; reflexivity | reflexivity | reflexivity].
Defined.

(** C6 as stated fails when the provider replies with an empty list and
    does not signal [noResults]: the list goes through the formats, and
    the text is [[]] in json mode, the empty string in minimal mode, and
    a header over nothing in dense mode. *)
Lemma empty_list_is_formatted :
  let args := VObject {[ js "query" := VString (js "x") ]} in
  let run cfg :=
    (exampleHandler cfg providerEmptyList providerEmptyList
       (js "duckduckgo_web_search") args 0 (initialWorld 0 0)).1 in
  exists cfgJson cfgMinimal,
    CONFIG constantNaN {[ js "DDG_OUTPUT_FORMAT" := js "json" ]} = Some cfgJson
    /\ CONFIG constantNaN {[ js "DDG_OUTPUT_FORMAT" := js "minimal" ]} = Some cfgMinimal
    /\ run cfgJson = {| text := js "[]"; isError := false |}
    /\ run cfgMinimal = {| text := []; isError := false |}
    /\ run defaultConfig
       = {| text := js "Web:" ++ dquote ++ js "x" ++ dquote ++ js " (0/3)" ++ newline;
            isError := false |}.
Proof.
  cbn zeta. do 2 eexists.
  split; [vm_compute; reflexivity|]. split; [vm_compute; reflexivity|].
  repeat split; vm_compute; reflexivity.
Qed.

Lemma invalid_arguments_rejected_witness :
  let blank := VObject {[ js "query" := VString (js "   ") ]} in
  let zero := VObject {[ js "query" := VString (js "x"); js "limit" := VNumber (ofZ 0) ]} in
  CONFIG constantNaN ∅ = Some defaultConfig
  /\ queryRefused (VString (js "   "))
  /\ countRefused (VNumber (ofZ 0))
  /\ (exampleHandler defaultConfig providerThree providerNoResults
        (js "duckduckgo_web_search") blank 0 (initialWorld 0 0)).2 = initialWorld 0 0
  /\ exampleHandler defaultConfig providerThree providerNoResults
        (js "duckduckgo_news_search") zero 0 (initialWorld 0 0)
     = ({| text := js "Error: Invalid arguments for duckduckgo_news_search. "
                   ++ js "Query must be a non-empty string (max 400 chars).";
           isError := true |}, initialWorld 0 0).
Proof.
  cbn zeta.
  assert (CONFIG constantNaN ∅ = Some defaultConfig) as Hcfg by reflexivity.
  assert (queryRefused (VString (js "   "))) as Hq by (left; reflexivity).
  assert (countRefused (VNumber (ofZ 0))) as Hc by reflexivity.
  split; [exact Hcfg|]. split; [exact Hq|]. split; [exact Hc|]. split.
  - destruct (invalid_arguments_rejected (H := PlainURL.api) integerToString
                constantDate defaultConfig providerThree providerNoResults constantNaN ∅
                {[ js "query" := VString (js "   ") ]} 0 (initialWorld 0 0) Hcfg)
      as (_ & _ & Hweb & _); [left; exact Hq|].
    unfold exampleHandler. by rewrite Hweb.
  - destruct (invalid_arguments_rejected (H := PlainURL.api) integerToString
                constantDate defaultConfig providerThree providerNoResults constantNaN ∅
                {[ js "query" := VString (js "x"); js "limit" := VNumber (ofZ 0) ]}
                0 (initialWorld 0 0) Hcfg)
      as (_ & _ & _ & Hnews); [right; left; exact Hc|].
    unfold exampleHandler. rewrite Hnews. vm_compute. reflexivity.
Defined.

(** C3 as stated fails on a fraction: [limit: 2.5] is present and is not
    an integer, yet both guards accept the request, the web search goes
    out to the provider, and of three results the first two are kept. *)
Lemma fractional_limit_accepted :
  let args := VObject {[ js "query" := VString (js "x");
                         js "limit" := VNumber (Finite (5 # 2)) ]} in
  let out := exampleHandler defaultConfig providerNoResults providerNoResults
               (js "duckduckgo_web_search") args 0 (initialWorld 0 0) in
  CONFIG constantNaN ∅ = Some defaultConfig
  /\ (forall z : Z, ~ (5 # 2 == inject_Z z)%Q)
  /\ isWebSearchArgs defaultConfig args = true
  /\ isNewsSearchArgs defaultConfig args = true
  /\ isError out.1 = false
  /\ providerCalls out.2 = [DDG.search (js "x") (webOptions Moderate (js "wt-wt") All)]
  /\ length (webResults (H := PlainURL.api) defaultConfig (Finite (5 # 2)) threeResults)
     = 2%nat.
Proof.
  cbn zeta. split; [reflexivity|]. split.
  { intros z. unfold Qeq. simpl. lia. }
  repeat split; vm_compute; reflexivity.
Qed.

(* ===================================================================== *)
(** ** Further properties of the request handler *)
(* ===================================================================== *)

Section HandlerOutcomes.

Variable NumberToString : number -> jsstring.
Variable toLocaleDateString : number -> jsstring.
Context `{URLApi}.
Variable cfg : Config.
Variable DDG_search :
  jsstring -> gmap jsstring DDG.OptionValue -> thrown + DDG.Results DDG.SearchResult.
Variable DDG_searchNews :
  jsstring -> gmap jsstring DDG.OptionValue -> thrown + DDG.Results DDG.NewsResult.

Local Abbreviation handler :=
  (callToolHandler NumberToString toLocaleDateString cfg DDG_search DDG_searchNews).
Local Abbreviation admission := (checkRateLimit NumberToString cfg).

(** The world an admitted check leaves. *)
Lemma admission_admitted (now : Z) (w : World) :
  (admission now w).1 = inr () ->
  (admission now w).2
  = setRequestCount w (increment (resetWindows now (requestCount w))).
Proof.
  unfold checkRateLimit.
  destruct (num_geb _ (perSecond _)); [done|].
  by destruct (num_geb _ (perMonth _)).
Qed.

(** The world and the error a refused check leaves. *)
Lemma admission_refused (now : Z) (w : World) (e : thrown) :
  (admission now w).1 = inl e ->
  (admission now w).2 = setRequestCount w (resetWindows now (requestCount w))
  /\ (e = ErrorObject (perSecondMessage NumberToString cfg)
      \/ e = ErrorObject (perMonthMessage NumberToString cfg)).
Proof.
  unfold checkRateLimit.
  destruct (num_geb _ (perSecond _)); [intros [= <-]; auto|].
  destruct (num_geb _ (perMonth _)); [intros [= <-]; auto|done].
Qed.

(** X1. A call with arguments whose tool name is neither of the two
    tools gets an error result whose text is "Unknown tool: " followed by
    the name; no counter moves and nothing is sent to the provider. *)
Theorem unknown_tool_result (name : jsstring) (args : value) (now : Z) (w : World) :
  truthy args = true ->
  name <> js "duckduckgo_web_search" ->
  name <> js "duckduckgo_news_search" ->
  handler name args now w
  = ({| text := js "Unknown tool: " ++ name; isError := true |}, w).
Proof.
  intros Ht Hweb Hnews. unfold callToolHandler, dispatch, jseqb.
  rewrite Ht. cbn [negb].
  by rewrite !bool_decide_eq_false_2.
Qed.

Lemma validQuery_string (v : value) :
  isValidQuery cfg v = true -> exists q, v = VString q.
Proof. destruct v; try done. eauto. Qed.

(** X2. When the provider throws during an admitted search, the handler
    answers with an error result whose text is "Error: " followed by the
    message of the error (or by its string form when it is not an
    Error). The call has used its slot all the same: both counters have
    gone up by one and the request is on the provider's record. *)
Theorem provider_failure_reported (args : value) (now : Z) (w : World) (e : thrown) :
  (admission now w).1 = inr () ->
  let failedWith call :=
    ({| text := js "Error: " ++ errorText e; isError := true |},
     {| requestCount := increment (resetWindows now (requestCount w));
        providerCalls := call :: providerCalls w |}) in
  (isWebSearchArgs cfg args = true ->
   let a := asWebSearchArgs args in
   let options :=
     webOptions (default (defaultSafeSearch (search cfg)) (Web.safeSearch a))
       (default (defaultRegion (search cfg)) (Web.region a))
       (default All (Web.time a)) in
   DDG_search (Web.query a) options = inl e ->
   handler (js "duckduckgo_web_search") args now w
   = failedWith (DDG.search (Web.query a) options))
  /\ (isNewsSearchArgs cfg args = true ->
   let a := asNewsSearchArgs args in
   let options :=
     newsOptions (default (defaultSafeSearch (search cfg)) (News.safeSearch a))
       (default All (News.time a)) in
   DDG_searchNews (News.query a) options = inl e ->
   handler (js "duckduckgo_news_search") args now w
   = failedWith (DDG.searchNews (News.query a) options)).
Proof.
  intros Hadm. pose proof (admission_admitted now w Hadm) as Hw.
  cbn zeta. split; intros Hv Hreply.
  - destruct (isWebSearchArgs_object _ _ Hv) as (fields & -> & _).
    rewrite handler_web, performWebSearch_run by done.
    destruct (admission now w) as [[e'|[]] w1]; [done|].
    simpl in Hw. subst w1. by rewrite Hreply.
  - destruct (isNewsSearchArgs_object _ _ Hv) as (fields & -> & _).
    rewrite handler_news, performNewsSearch_run by done.
    destruct (admission now w) as [[e'|[]] w1]; [done|].
    simpl in Hw. subst w1. by rewrite Hreply.
Qed.

(** X3. A valid request that the rate limiter refuses is answered with
    an error result carrying the limiter's message, one of the two, and
    is not sent to the provider; the counters are those the reset of the
    windows left, not incremented. *)
Theorem rate_limited_request_not_sent (args : value) (now : Z) (w : World) (e : thrown) :
  (admission now w).1 = inl e ->
  let refused :=
    ({| text := js "Error: " ++ errorText e; isError := true |},
     {| requestCount := resetWindows now (requestCount w);
        providerCalls := providerCalls w |}) in
  (e = ErrorObject (perSecondMessage NumberToString cfg)
   \/ e = ErrorObject (perMonthMessage NumberToString cfg))
  /\ (isWebSearchArgs cfg args = true ->
      handler (js "duckduckgo_web_search") args now w = refused)
  /\ (isNewsSearchArgs cfg args = true ->
      handler (js "duckduckgo_news_search") args now w = refused).
Proof.
  intros Hadm. destruct (admission_refused now w e Hadm) as [Hw He].
  cbn zeta. split; [exact He|]. split; intros Hv.
  - destruct (isWebSearchArgs_object _ _ Hv) as (fields & -> & _).
    rewrite handler_web, performWebSearch_run by done.
    destruct (admission now w) as [[e'|[]] w1]; [|done].
    simpl in *. by simplify_eq.
  - destruct (isNewsSearchArgs_object _ _ Hv) as (fields & -> & _).
    rewrite handler_news, performNewsSearch_run by done.
    destruct (admission now w) as [[e'|[]] w1]; [|done].
    simpl in *. by simplify_eq.
Qed.

(** X4. An admitted valid request puts exactly one request on the
    provider's record, whatever the provider replies. It carries the
    [query] of the arguments as it was given, not trimmed; [safeSearch]
    translated, "moderate" when absent; for a web search the [region] as
    given, the configured default when absent; a news search sends no
    [region]. *)
Theorem admitted_request_sent_once (fields : gmap jsstring value) (now : Z) (w : World) :
  (admission now w).1 = inr () ->
  let safe :=
    getSafeSearchType
      (default (defaultSafeSearch (search cfg)) (asSafeSearch (getField fields "safeSearch"))) in
  (isWebSearchArgs cfg (VObject fields) = true ->
   exists q options,
     getField fields "query" = VString q
     /\ providerCalls (handler (js "duckduckgo_web_search") (VObject fields) now w).2
        = DDG.search q options :: providerCalls w
     /\ options !! js "safeSearch" = Some (DDG.OSafeSearch safe)
     /\ options !! js "region"
        = Some (DDG.ORegion (default (defaultRegion (search cfg))
                               (asRegion (getField fields "region")))))
  /\ (isNewsSearchArgs cfg (VObject fields) = true ->
   exists q options,
     getField fields "query" = VString q
     /\ providerCalls (handler (js "duckduckgo_news_search") (VObject fields) now w).2
        = DDG.searchNews q options :: providerCalls w
     /\ options !! js "safeSearch" = Some (DDG.OSafeSearch safe)
     /\ options !! js "region" = None).
Proof.
  intros Hadm. pose proof (admission_admitted now w Hadm) as Hw.
  cbn zeta. split; intros Hv.
  - destruct (isWebSearchArgs_object _ _ Hv) as (fields' & [= <-] & Hq & _).
    destruct (validQuery_string _ Hq) as [q Eq].
    exists q. eexists. split; [exact Eq|].
    rewrite handler_web, performWebSearch_run by done.
    destruct (admission now w) as [[e'|[]] w1]; [done|].
    simpl in Hw. subst w1. cbn [asWebSearchArgs fieldsOf Web.query Web.safeSearch
      Web.region Web.time]. rewrite Eq. cbn [asString].
    split; [by destruct (DDG_search _ _) as [e|r]|].
    apply webOptions_keys.
  - destruct (isNewsSearchArgs_object _ _ Hv) as (fields' & [= <-] & Hq & _).
    destruct (validQuery_string _ Hq) as [q Eq].
    exists q. eexists. split; [exact Eq|].
    rewrite handler_news, performNewsSearch_run by done.
    destruct (admission now w) as [[e'|[]] w1]; [done|].
    simpl in Hw. subst w1. cbn [asNewsSearchArgs fieldsOf News.query News.safeSearch
      News.time]. rewrite Eq. cbn [asString].
    split; [by destruct (DDG_searchNews _ _) as [e|r]|].
    by destruct (default All (asTime (getField fields "time"))).
Qed.

End HandlerOutcomes.

(* ===================================================================== *)
(** ** Windows of the rate limiter *)
(* ===================================================================== *)

Section Windows.

Variable NumberToString : number -> jsstring.
Variable cfg : Config.

Local Abbreviation admission := (checkRateLimit NumberToString cfg).

Lemma resetWindows_within (now : Z) (rc : RequestCount) :
  now - lastSecondReset rc <= ONE_SECOND_MS ->
  now - lastMonthReset rc <= ONE_MONTH_MS ->
  resetWindows now rc = rc.
Proof.
  intros Hs Hm. unfold resetWindows, resetSecond.
  assert ((ONE_SECOND_MS <? now - lastSecondReset rc) = false) as -> by lia.
  unfold resetMonth.
  by assert ((ONE_MONTH_MS <? now - lastMonthReset rc) = false) as -> by lia.
Qed.

Lemma resetWindows_second (now : Z) (rc : RequestCount) :
  (now - lastSecondReset rc <= ONE_SECOND_MS ->
   second (resetWindows now rc) = second rc
   /\ lastSecondReset (resetWindows now rc) = lastSecondReset rc)
  /\ (ONE_SECOND_MS < now - lastSecondReset rc ->
   second (resetWindows now rc) = 0
   /\ lastSecondReset (resetWindows now rc) = now).
Proof.
  unfold resetWindows, resetMonth, resetSecond.
  destruct (ONE_SECOND_MS <? now - lastSecondReset rc) eqn:Es;
    cbn [lastMonthReset];
    destruct (ONE_MONTH_MS <? now - lastMonthReset rc) eqn:Em;
    cbn [second lastSecondReset]; split; intros; (lia || done).
Qed.

(** X5. The per-second window is closed on the right: a window that is
    full still refuses a call made exactly 1000 ms after it started, with
    the per-second message. A call made later than that restarts the
    window at its own clock reading, and when the cap is above 0 it is
    not refused on the per-second count: it is admitted, or refused on
    the monthly one. *)
Theorem second_window_boundary (now : Z) (w : World) :
  let rc := requestCount w in
  let out := admission now w in
  (now - lastSecondReset rc <= ONE_SECOND_MS ->
   num_geb (ofZ (second rc)) (perSecond (rateLimit cfg)) = true ->
   out.1 = inl (ErrorObject (perSecondMessage NumberToString cfg))
   /\ lastSecondReset (requestCount out.2) = lastSecondReset rc)
  /\ (ONE_SECOND_MS < now - lastSecondReset rc ->
   lastSecondReset (requestCount out.2) = now
   /\ (num_geb (ofZ 0) (perSecond (rateLimit cfg)) = false ->
       (out.1 = inr () /\ second (requestCount out.2) = 1)
       \/ (out.1 = inl (ErrorObject (perMonthMessage NumberToString cfg))
           /\ second (requestCount out.2) = 0))).
Proof.
  cbn zeta. destruct (resetWindows_second now (requestCount w)) as [Hin Hout].
  unfold checkRateLimit. split.
  - intros Hle Hfull. destruct (Hin Hle) as [-> Hstart]. by rewrite Hfull.
  - intros Hlt. destruct (Hout Hlt) as [Hzero Hstart]. rewrite Hzero.
    destruct (num_geb (ofZ 0) _) eqn:E0; cbn.
    { split; [exact Hstart | discriminate]. }
    destruct (num_geb (ofZ (month _)) _); cbn.
    + split; [exact Hstart|]. intros _. right. by rewrite Hzero.
    + split; [exact Hstart|]. intros _. left. by rewrite Hzero.
Qed.

(** X6. Within one window the limiter admits calls up to the caps and no
    further. From a world whose per-second count is [s] and monthly count
    is [m], a run of checks at clock readings inside both windows is
    admitted throughout when it fits under both caps, and leaves the
    counts at [s] and [m] plus the number of checks; and when such a run
    has brought the per-second count to the cap, one more check inside
    the window is refused with the per-second message. *)
Theorem burst_up_to_cap (cs cm : Z) (nows : list Z) (w : World) :
  perSecond (rateLimit cfg) = ofZ cs ->
  perMonth (rateLimit cfg) = ofZ cm ->
  Forall (fun t => t - lastSecondReset (requestCount w) <= ONE_SECOND_MS
                   /\ t - lastMonthReset (requestCount w) <= ONE_MONTH_MS) nows ->
  second (requestCount w) + Z.of_nat (length nows) <= cs ->
  month (requestCount w) + Z.of_nat (length nows) <= cm ->
  let run := admissions NumberToString cfg nows w in
  run.1 = replicate (length nows) (inr ())
  /\ run.2
     = setRequestCount w
         {| second := second (requestCount w) + Z.of_nat (length nows);
            month := month (requestCount w) + Z.of_nat (length nows);
            lastSecondReset := lastSecondReset (requestCount w);
            lastMonthReset := lastMonthReset (requestCount w) |}
  /\ (second (requestCount w) + Z.of_nat (length nows) = cs ->
      forall t, t - lastSecondReset (requestCount w) <= ONE_SECOND_MS ->
        (admission t run.2).1 = inl (ErrorObject (perSecondMessage NumberToString cfg))).
Proof.
  intros Hs Hm Hin Hsec Hmon. cbn zeta.
  assert (admissions NumberToString cfg nows w
          = (replicate (length nows) (inr ()),
             setRequestCount w
               {| second := second (requestCount w) + Z.of_nat (length nows);
                  month := month (requestCount w) + Z.of_nat (length nows);
                  lastSecondReset := lastSecondReset (requestCount w);
                  lastMonthReset := lastMonthReset (requestCount w) |})) as Hrun.
  { revert w Hin Hsec Hmon. induction nows as [|now nows IH]; intros w Hin Hsec Hmon.
    - simpl. rewrite !Z.add_0_r. by destruct w as [[] ?].
    - apply Forall_cons in Hin as [[Hnow_s Hnow_m] Hin].
      cbn [admissions length replicate] in *.
      unfold checkRateLimit. rewrite resetWindows_within, Hs, Hm by done.
      assert (num_geb (ofZ (second (requestCount w))) (ofZ cs) = false) as ->
        by (apply num_leb_ofZ_false; lia).
      assert (num_geb (ofZ (month (requestCount w))) (ofZ cm) = false) as ->
        by (apply num_leb_ofZ_false; lia).
      rewrite IH; cbn; [|done|lia|lia].
      unfold setRequestCount. cbn. do 3 f_equal; lia. }
  rewrite Hrun. cbn [fst snd]. split; [done|]. split; [done|].
  intros Hfull t Ht. unfold checkRateLimit, setRequestCount.
  cbn [requestCount].
  destruct (resetWindows_second t
              {| second := second (requestCount w) + Z.of_nat (length nows);
                 month := month (requestCount w) + Z.of_nat (length nows);
                 lastSecondReset := lastSecondReset (requestCount w);
                 lastMonthReset := lastMonthReset (requestCount w) |}) as [Hkeep _].
  destruct (Hkeep Ht) as [-> _]. cbn [second]. rewrite Hs, Hfull.
  by assert (num_geb (ofZ cs) (ofZ cs) = true) as -> by (apply num_leb_ofZ; lia).
Qed.

End Windows.

(* ===================================================================== *)
(** ** What the validators accept *)
(* ===================================================================== *)

Lemma trimStart_head (q r : jsstring) (c : N) :
  trimStart q = c :: r -> isWhiteSpace c = false.
Proof.
  induction q as [|x q IH]; simpl; [done|].
  destruct (isWhiteSpace x) eqn:E; [exact IH|]. by intros [= <- _].
Qed.

Lemma trimStart_nil (q : jsstring) :
  trimStart q = [] <-> forallb isWhiteSpace q = true.
Proof.
  split; [|apply trimStart_whitespace].
  induction q as [|x q IH]; simpl; [done|].
  destruct (isWhiteSpace x); [exact IH|done].
Qed.

(** What [trimStart] drops is white space, and what it keeps is the rest. *)
Lemma trimStart_split (q : jsstring) :
  exists pre, q = pre ++ trimStart q /\ forallb isWhiteSpace pre = true.
Proof.
  induction q as [|x q (pre & E & Hpre)]; [by exists []|]. simpl.
  destruct (isWhiteSpace x) eqn:Ex.
  - exists (x :: pre). simpl. rewrite Ex, Hpre. by rewrite <- E.
  - by exists [].
Qed.

Lemma forallb_rev {A} (f : A -> bool) (l : list A) :
  forallb f (rev l) = forallb f l.
Proof.
  induction l as [|x l IH]; [done|]. simpl.
  rewrite forallb_app, IH. simpl. rewrite andb_true_r. apply andb_comm.
Qed.

Lemma forallb_false_elem {A} (f : A -> bool) (l : list A) :
  forallb f l = false -> exists x, x ∈ l /\ f x = false.
Proof.
  induction l as [|x l IH]; [done|]. simpl.
  destruct (f x) eqn:E.
  - intros (y & Hy & Hf)%IH. exists y. split; [by right|done].
  - intros _. exists x. split; [by left|done].
Qed.

(** A string trims to nothing exactly when it is all white space. *)
Lemma trim_nil (q : jsstring) :
  trim q = [] <-> forallb isWhiteSpace q = true.
Proof.
  unfold trim, trimEnd. split.
  - intros E. apply (f_equal (@rev N)) in E. rewrite rev_involutive in E.
    simpl in E. apply trimStart_nil in E. rewrite forallb_rev in E.
    destruct (trimStart q) as [|c r] eqn:Eq; [by apply trimStart_nil|].
    apply trimStart_head in Eq. simpl in E. by rewrite Eq in E.
  - intros Hq. by rewrite (trimStart_whitespace q Hq).
Qed.

Section Validators.

Variable cfg : Config.

(** X7. [isValidQuery] accepts exactly the strings that hold at least one
    character that is not white space and are no longer than the
    configured maximum; leading and trailing white space does not count
    against a query, and nothing that is not a string passes. *)
Theorem isValidQuery_exact (v : value) :
  isValidQuery cfg v = true
  <-> exists q, v = VString q
        /\ (exists c, c ∈ q /\ isWhiteSpace c = false)
        /\ num_leb (ofZ (jslength q)) (maxQueryLength (search cfg)) = true.
Proof.
  assert (forall q, (0 <? jslength (trim q)) = true
                    <-> exists c, c ∈ q /\ isWhiteSpace c = false) as Htrim.
  { intros q. unfold jslength. rewrite Z.ltb_lt. split.
    - intros Hpos. destruct (forallb isWhiteSpace q) eqn:E.
      + apply trim_nil in E. rewrite E in Hpos. simpl in Hpos. lia.
      + by apply forallb_false_elem.
    - intros (c & Hin & Hc). destruct (trim q) eqn:E; [|simpl; lia].
      apply trim_nil in E. rewrite forallb_forall in E.
      rewrite (E c) in Hc; [done|by apply list_elem_of_In]. }
  split.
  - destruct v as [| | | |q|]; try done. simpl.
    intros [Hne Hlen]%andb_prop. exists q. by rewrite <- Htrim.
  - intros (q & -> & Hne & Hlen). simpl. apply andb_true_intro.
    by rewrite Htrim.
Qed.

Lemma known_regions_match :
  Forall (fun r => regionPattern r = true) VALID_REGIONS.
Proof. repeat constructor. Qed.

(** X8. Region validation is a matter of shape alone: every code of the
    list of known regions already has the shape two letters, a hyphen,
    two letters, so [isValidRegion] accepts [undefined] and exactly the
    strings of that shape, in either case of letters, and no other
    value. *)
Theorem isValidRegion_exact (v : value) :
  isValidRegion v = true
  <-> v = VUndefined
      \/ exists a b c d,
           v = VString [a; b; 45%N; c; d]
           /\ isLetter a = true /\ isLetter b = true
           /\ isLetter c = true /\ isLetter d = true.
Proof.
  assert (forall r, regionPattern r = true
            <-> exists a b c d, r = [a; b; 45%N; c; d]
                  /\ isLetter a = true /\ isLetter b = true
                  /\ isLetter c = true /\ isLetter d = true) as Hpat.
  { intros r. split.
    - destruct r as [|a [|b [|h [|c [|d [|? ?]]]]]]; try done. simpl.
      rewrite !andb_true_iff, N.eqb_eq. intros ((((?&?)&->)&?)&?).
      by exists a, b, c, d.
    - intros (a & b & c & d & -> & Ha & Hb & Hc & Hd). simpl.
      by rewrite Ha, Hb, Hc, Hd. }
  split.
  - destruct v as [| | | |r|]; try done; [by left|]. simpl.
    intros Hok. right.
    assert (regionPattern r = true) as Hp.
    { apply orb_prop in Hok as [Hin|Hp]; [|done].
      apply bool_decide_eq_true in Hin.
      by apply (proj1 (Forall_forall _ _) known_regions_match). }
    apply Hpat in Hp as (a & b & c & d & -> & Hl). by exists a, b, c, d.
  - intros [->|(a & b & c & d & -> & Hl)]; [done|]. simpl.
    apply orb_true_intro. right.
    destruct Hl as (Ha & Hb & Hc & Hd). by rewrite Ha, Hb, Hc, Hd.
Qed.

Lemma asSafeSearch_exact (v : value) (s : SafeSearch) :
  asSafeSearch v = Some s <-> v = VString (safeSearchName s).
Proof.
  split.
  - destruct v as [| | | |x|]; try done. unfold asSafeSearch, jseqb.
    repeat case_bool_decide; intros [= <-]; by subst.
  - intros ->. by destruct s.
Qed.

Lemma asTime_exact (v : value) (t : TimeRange) :
  asTime v = Some t <-> v = VString (timeName t).
Proof.
  split.
  - destruct v as [| | | |x|]; try done. unfold asTime, jseqb.
    repeat case_bool_decide; intros [= <-]; by subst.
  - intros ->. by destruct t.
Qed.

Lemma validSafeSearch_view (v : value) :
  isValidSafeSearch v = true ->
  v = VUndefined \/ exists s, v = VString (safeSearchName s) /\ asSafeSearch v = Some s.
Proof.
  destruct v as [| | | |x|]; try done; [by left|]. simpl.
  intros Hin%bool_decide_eq_true. right.
  rewrite !elem_of_cons, elem_of_nil in Hin.
  destruct Hin as [->|[->|[->|[]]]];
    [by exists Strict | by exists Moderate | by exists Off].
Qed.

Lemma validTime_view (v : value) :
  isValidTime v = true ->
  v = VUndefined \/ exists t, v = VString (timeName t) /\ asTime v = Some t.
Proof.
  destruct v as [| | | |x|]; try done; [by left|]. simpl.
  intros Hin%bool_decide_eq_true. right.
  rewrite !elem_of_cons, elem_of_nil in Hin.
  destruct Hin as [->|[->|[->|[->|[->|[]]]]]];
    [by exists Day | by exists Week | by exists Month | by exists Year | by exists All].
Qed.

(** X9. The guard of the web tool is sound for the type it narrows to.
    Arguments that pass it are an object whose [query] is a string, read
    as it is; whose [count] and [limit] are absent or numbers; whose
    [safeSearch] and [time] are absent or one of the listed strings, read
    as the value of that name; and whose [region] is absent or a string.
    Absent fields read as no value, so the defaults apply to them and to
    nothing else. *)
Theorem isWebSearchArgs_sound (args : value) :
  isWebSearchArgs cfg args = true ->
  exists fields q,
    args = VObject fields
    /\ getField fields "query" = VString q
    /\ Web.query (asWebSearchArgs args) = q
    /\ (forall name view,
          (name, view) ∈ [ ("count"%string, Web.count (asWebSearchArgs args));
                           ("limit"%string, Web.limit (asWebSearchArgs args)) ] ->
          (getField fields name = VUndefined /\ view = None)
          \/ exists n, getField fields name = VNumber n /\ view = Some n)
    /\ ((getField fields "safeSearch" = VUndefined
         /\ Web.safeSearch (asWebSearchArgs args) = None)
        \/ exists s, getField fields "safeSearch" = VString (safeSearchName s)
                     /\ Web.safeSearch (asWebSearchArgs args) = Some s)
    /\ ((getField fields "time" = VUndefined
         /\ Web.time (asWebSearchArgs args) = None)
        \/ exists t, getField fields "time" = VString (timeName t)
                     /\ Web.time (asWebSearchArgs args) = Some t)
    /\ ((getField fields "region" = VUndefined
         /\ Web.region (asWebSearchArgs args) = None)
        \/ exists r, getField fields "region" = VString r
                     /\ Web.region (asWebSearchArgs args) = Some r).
Proof.
  destruct args as [| | | | |fields]; try done. simpl.
  rewrite !andb_true_iff. intros (((((Hq & Hc) & Hl) & Hs) & Hr) & Ht).
  destruct (getField fields "query") as [| | | |q|] eqn:Eq; try done.
  exists fields, q. split; [done|]. split; [done|]. split; [done|].
  split; [|split; [|split]].
  - intros name view Hin. rewrite !elem_of_cons, elem_of_nil in Hin.
    destruct Hin as [[= -> ->]|[[= -> ->]|[]]].
    + destruct (getField fields "count"); try done; [by left|right; eauto].
    + destruct (getField fields "limit"); try done; [by left|right; eauto].
  - destruct (validSafeSearch_view _ Hs) as [E|(s & E & Hv)].
    + left. by rewrite E.
    + right. exists s. by rewrite <- Hv.
  - destruct (validTime_view _ Ht) as [E|(t & E & Hv)].
    + left. by rewrite E.
    + right. exists t. by rewrite <- Hv.
  - destruct (getField fields "region"); try done; [by left|right; eauto].
Qed.

Lemma getField_insert_other (fields : gmap jsstring value) (k : jsstring)
    (v : value) (name : string) :
  k <> js name -> getField (<[k:=v]> fields) name = getField fields name.
Proof. intros Hk. unfold getField. by rewrite lookup_insert_ne. Qed.

(** X10. The guards read six properties and no others. A property under
    any other key does not change what either guard answers; the guard of
    the news tool does not read [region] either, so whatever passes the
    web guard passes the news guard, and a news request may carry any
    [region] at all. *)
Theorem guards_ignore_other_keys (fields : gmap jsstring value) (k : jsstring)
    (v : value) :
  (k ∉ [ js "query"; js "count"; js "limit"; js "safeSearch"; js "region"; js "time" ] ->
   isWebSearchArgs cfg (VObject (<[k:=v]> fields)) = isWebSearchArgs cfg (VObject fields)
   /\ isNewsSearchArgs cfg (VObject (<[k:=v]> fields))
      = isNewsSearchArgs cfg (VObject fields))
  /\ isNewsSearchArgs cfg (VObject (<[js "region":=v]> fields))
     = isNewsSearchArgs cfg (VObject fields)
  /\ (isWebSearchArgs cfg (VObject fields) = true ->
      isNewsSearchArgs cfg (VObject fields) = true).
Proof.
  split; [|split].
  - rewrite !not_elem_of_cons. intros (?&?&?&?&?&?&_). simpl.
    by rewrite !getField_insert_other.
  - simpl. by rewrite !getField_insert_other.
  - simpl. rewrite !andb_true_iff. tauto.
Qed.

End Validators.

(* ===================================================================== *)
(** ** What the normaliser keeps *)
(* ===================================================================== *)

(** Induction for functions that read a text one or two code units at a
    time. *)
Lemma units_ind (P : jsstring -> Prop) :
  P [] -> (forall c, P [c]) ->
  (forall c d r, P r -> P (d :: r) -> P (c :: d :: r)) ->
  forall s, P s.
Proof.
  intros H0 H1 H2 s.
  assert (P s /\ forall c, P (c :: s)) as [Hs _]; [|exact Hs].
  induction s as [|d r [IHr IHc]]; [by split|].
  split; [apply IHc|]. intros c. by apply H2.
Qed.

Lemma stripEmojis_pair (c d : N) (r : jsstring) :
  stripEmojis (c :: d :: r)
  = if isHighSurrogate c && isLowSurrogate d
    then if isEmoji (codePoint c d) then stripEmojis r
         else c :: d :: stripEmojis r
    else if isEmoji c then stripEmojis (d :: r)
         else c :: stripEmojis (d :: r).
Proof. reflexivity. Qed.

Lemma stripEmojis_unit (c : N) :
  stripEmojis [c] = if isEmoji c then [] else [c].
Proof. reflexivity. Qed.

Lemma plainUnit_kept (c : N) :
  plainUnit c = true ->
  isEmoji c = false /\ isHighSurrogate c = false /\ isLowSurrogate c = false.
Proof.
  unfold plainUnit. intros Hc%N.ltb_lt.
  repeat split; apply not_true_iff_false; intros E;
    unfold isEmoji, isHighSurrogate, isLowSurrogate in E;
    rewrite ?orb_true_iff, ?andb_true_iff, ?N.leb_le in E; lia.
Qed.

Lemma stripEmojis_sublist (text : jsstring) : sublist (stripEmojis text) text.
Proof.
  induction text as [| c | c d r IHr IHd] using units_ind.
  - constructor.
  - simpl. destruct (isEmoji c); [apply sublist_nil_l | done].
  - rewrite stripEmojis_pair.
    destruct (isHighSurrogate c && isLowSurrogate d).
    + destruct (isEmoji (codePoint c d)).
      * by do 2 apply sublist_cons.
      * by do 2 apply sublist_skip.
    + destruct (isEmoji c); [by apply sublist_cons | by apply sublist_skip].
Qed.

Lemma stripEmojis_length (text : jsstring) :
  jslength (stripEmojis text) <= jslength text.
Proof.
  unfold jslength. pose proof (sublist_length _ _ (stripEmojis_sublist text)). lia.
Qed.

(** X13. [stripEmojis] only removes: what it returns is the text with
    some code units left out, in the same order. It never removes a code
    unit below U+2600, so the plain characters of a text all survive, and
    a text made of such characters only comes back unchanged. *)
Theorem stripEmojis_keeps_text (text : jsstring) :
  sublist (stripEmojis text) text
  /\ filter (fun c => plainUnit c = true) (stripEmojis text)
     = filter (fun c => plainUnit c = true) text
  /\ (forallb plainUnit text = true -> stripEmojis text = text).
Proof.
  split; [apply stripEmojis_sublist|]. split.
  - unfold jsstring. induction text as [| c | c d r IHr IHd] using units_ind.
    + done.
    + rewrite stripEmojis_unit. destruct (isEmoji c) eqn:E; [|done].
      rewrite filter_cons_False; [done|].
      intros [? _]%plainUnit_kept. congruence.
    + rewrite stripEmojis_pair.
      destruct (isHighSurrogate c && isLowSurrogate d) eqn:Ep.
      * apply andb_prop in Ep as [Hc Hd].
        assert (plainUnit c <> true) as Hpc.
        { intros (_ & ? & _)%plainUnit_kept. congruence. }
        assert (plainUnit d <> true) as Hpd.
        { intros (_ & _ & ?)%plainUnit_kept. congruence. }
        rewrite (filter_cons_False _ c), (filter_cons_False _ d) by done.
        destruct (isEmoji (codePoint c d)); [done|].
        by rewrite !filter_cons_False by done.
      * destruct (isEmoji c) eqn:E.
        -- rewrite (filter_cons_False _ c); [done|].
           intros [? _]%plainUnit_kept. congruence.
        -- rewrite !(filter_cons _ c). destruct (decide _); by rewrite IHd.
  - induction text as [|c rest IH]; [done|].
    intros [Hc Hrest]%andb_prop. destruct (plainUnit_kept c Hc) as (He & Hh & _).
    destruct rest as [|d rest'].
    + by rewrite stripEmojis_unit, He.
    + rewrite stripEmojis_pair, Hh, He. cbn [andb]. by rewrite IH.
Qed.

Lemma truncateSnippet_within (text : jsstring) (maxLen : number) :
  num_leb (ofZ 3) maxLen = true ->
  num_leb (ofZ (jslength (truncateSnippet text maxLen))) maxLen = true.
Proof.
  intros H3. unfold truncateSnippet.
  destruct (num_leb (ofZ (jslength text)) maxLen) eqn:E; [exact E|].
  destruct maxLen as [| |q|]; try done.
  simpl in H3. apply Qle_bool_iff in H3.
  unfold jslength. rewrite length_app, slice0_length, js_length.
  unfold num_sub, ofZ, sliceEnd.
  assert (0 <= q - inject_Z 3)%Q as Hpos.
  { apply (Qplus_le_r _ _ (inject_Z 3)). ring_simplify. exact H3. }
  destruct (Qtrunc_le _ Hpos) as [Ht Hle].
  assert ((Qtrunc (q - inject_Z 3) <? 0) = false) as -> by lia.
  simpl. apply Qle_bool_iff.
  apply Qle_trans with (inject_Z (Qtrunc (q - inject_Z 3) + 3)).
  - rewrite <- Zle_Qle. simpl String.length. lia.
  - rewrite inject_Z_plus. apply (Qplus_le_r _ _ (- inject_Z 3)). ring_simplify.
    ring_simplify in Hle. exact Hle.
Qed.

Section Normaliser.

Variable toLocaleDateString : number -> jsstring.
Context `{URLApi}.
Variable cfg : Config.

(** Every normalised web result comes from a result of the provider. *)
Lemma webResults_elem (eff : number) (raw : list DDG.SearchResult) (r : Web.Result) :
  r ∈ webResults cfg eff raw ->
  exists p, p ∈ raw
    /\ (r = normaliseWeb cfg p \/ r = stripWebDescription (normaliseWeb cfg p)).
Proof.
  unfold webResults, slice0. cbn zeta. destruct (stripEmoji (search cfg)).
  - rewrite <- list_fmap_compose.
    intros (p & -> & Hp)%list_elem_of_fmap. exists p. split; [|by right].
    eapply elem_of_sublist; [done|apply sublist_take].
  - intros (p & -> & Hp)%list_elem_of_fmap. exists p. split; [|by left].
    eapply elem_of_sublist; [done|apply sublist_take].
Qed.

Lemma newsResults_elem (eff : number) (raw : list DDG.NewsResult) (r : News.Result) :
  r ∈ newsResults toLocaleDateString cfg eff raw ->
  exists p, p ∈ raw
    /\ (r = normaliseNews toLocaleDateString cfg p
        \/ r = stripNewsExcerpt (normaliseNews toLocaleDateString cfg p)).
Proof.
  unfold newsResults, slice0. cbn zeta. destruct (stripEmoji (search cfg)).
  - rewrite <- list_fmap_compose.
    intros (p & -> & Hp)%list_elem_of_fmap. exists p. split; [|by right].
    eapply elem_of_sublist; [done|apply sublist_take].
  - intros (p & -> & Hp)%list_elem_of_fmap. exists p. split; [|by left].
    eapply elem_of_sublist; [done|apply sublist_take].
Qed.

Lemma num_leb_shorter (a b : Z) (x : number) :
  a <= b -> num_leb (ofZ b) x = true -> num_leb (ofZ a) x = true.
Proof.
  intros Hab. destruct x as [| |q|]; simpl; try done.
  rewrite !Qle_bool_iff. intros Hb.
  apply Qle_trans with (inject_Z b); [by rewrite <- Zle_Qle | done].
Qed.

(** X11. Under a resolved configuration that does not enable full
    content, no body text leaves the normaliser longer than the
    configured snippet length: the description of every web result and
    the excerpt of every news result has at most that many code units,
    with or without emoji stripping, and whatever the provider sent. *)
Theorem snippets_within_cap (StringToNumber : jsstring -> number) (env : Env)
    (eff : number) :
  CONFIG StringToNumber env = Some cfg ->
  enableFullContent (search cfg) = false ->
  (forall raw r, r ∈ webResults cfg eff raw ->
     num_leb (ofZ (jslength (Web.description r))) (maxSnippetLength (search cfg)) = true)
  /\ (forall raw r, r ∈ newsResults toLocaleDateString cfg eff raw ->
     num_leb (ofZ (jslength (News.excerpt r))) (maxSnippetLength (search cfg)) = true).
Proof.
  intros Hcfg Hfull.
  destruct (CONFIG_schema_keys _ _ _ Hcfg) as (_ & _ & H50 & _).
  assert (num_leb (ofZ 3) (maxSnippetLength (search cfg)) = true) as H3
    by (apply (num_leb_shorter 3 50); [lia|done]).
  split; intros raw r Hr.
  - destruct (webResults_elem _ _ _ Hr) as (p & _ & [-> | ->]);
      cbn [Web.description normaliseWeb stripWebDescription]; rewrite Hfull.
    + by apply truncateSnippet_within.
    + eapply num_leb_shorter; [apply stripEmojis_length|].
      by apply truncateSnippet_within.
  - destruct (newsResults_elem _ _ _ Hr) as (p & _ & [-> | ->]);
      cbn [News.excerpt normaliseNews stripNewsExcerpt]; rewrite Hfull.
    + by apply truncateSnippet_within.
    + eapply num_leb_shorter; [apply stripEmojis_length|].
      by apply truncateSnippet_within.
Qed.

(** X12. A cleaned URL that parses has no tracking parameter left: none
    of the nine names is the name of a pair of its query. This holds for
    the [url] of every normalised web and news result. *)
Theorem cleaned_urls_have_no_tracking (eff : number) :
  (forall url u p, newURL (cleanUrl url) = Some u ->
     p ∈ trackingParams -> p ∉ (searchParams u).*1)
  /\ (forall raw r u p, r ∈ webResults cfg eff raw ->
     newURL (Web.url r) = Some u -> p ∈ trackingParams -> p ∉ (searchParams u).*1)
  /\ (forall raw r u p, r ∈ newsResults toLocaleDateString cfg eff raw ->
     newURL (News.url r) = Some u -> p ∈ trackingParams -> p ∉ (searchParams u).*1).
Proof.
  assert (forall url u p, newURL (cleanUrl url) = Some u ->
            p ∈ trackingParams -> p ∉ (searchParams u).*1) as Hclean.
  { intros url u p Hu Hp. unfold cleanUrl in Hu.
    destruct (newURL url) as [u0|] eqn:E; [|congruence].
    rewrite newURL_toString in Hu. injection Hu as <-.
    rewrite deleteTracking_params. by apply filtered_names_absent. }
  split; [exact Hclean|]. split; intros raw r u p Hr Hu Hp.
  - destruct (webResults_elem _ _ _ Hr) as (q & _ & [-> | ->]);
      by apply (Hclean (DDG.url q)).
  - destruct (newsResults_elem _ _ _ Hr) as (q & _ & [-> | ->]);
      by apply (Hclean (DDG.news_url q)).
Qed.

End Normaliser.

Section ProviderOrder.

Context `{URLApi}.
Variable cfg : Config.

(** X15. The normaliser keeps the provider's order and passes through
    what it does not clean: the result at a position comes from the
    provider's result at that position, with the same hostname, the
    cleaned URL, and, unless emoji are stripped, the same title. *)
Theorem results_follow_provider (eff : number) (raw : list DDG.SearchResult)
    (i : nat) (r : Web.Result) :
  webResults cfg eff raw !! i = Some r ->
  exists p, raw !! i = Some p
    /\ Web.hostname r = DDG.hostname p
    /\ Web.url r = cleanUrl (DDG.url p)
    /\ Web.title r = (if stripEmoji (search cfg) then stripEmojis (DDG.title p)
                      else DDG.title p).
Proof.
  unfold webResults, slice0. cbn zeta. intros Hr.
  assert (exists p, take (sliceEnd (length raw) eff) raw !! i = Some p
            /\ (r = normaliseWeb cfg p \/ r = stripWebDescription (normaliseWeb cfg p)))
    as (p & Hp & Hrp).
  { destruct (stripEmoji (search cfg)).
    - rewrite <- list_fmap_compose, list_lookup_fmap in Hr.
      destruct (take _ raw !! i) as [p|]; [|done]. injection Hr as <-. eauto.
    - rewrite list_lookup_fmap in Hr.
      destruct (take _ raw !! i) as [p|]; [|done]. injection Hr as <-. eauto. }
  exists p. split.
  - apply lookup_take_Some in Hp. tauto.
  - by destruct Hrp as [-> | ->].
Qed.

End ProviderOrder.

(* ===================================================================== *)
(** ** The shape of the rendered text *)
(* ===================================================================== *)

Lemma join_cons_cons (sep x y : jsstring) (l : list jsstring) :
  join sep (x :: y :: l) = x ++ sep ++ join sep (y :: l).
Proof. reflexivity. Qed.

Lemma singleLine_app (a b : jsstring) :
  singleLine (a ++ b) = singleLine a && singleLine b.
Proof. apply forallb_app. Qed.

Lemma splitLines_header (header body : jsstring) :
  singleLine header = true ->
  splitLines (header ++ newline ++ body) = header :: splitLines body.
Proof. intros Hh. by apply PlainURL.splitOn_app. Qed.

(** Splitting at line feeds undoes joining with them, for lines that
    hold none. *)
Lemma splitLines_join (lines : list jsstring) :
  lines <> [] -> Forall (fun l => singleLine l = true) lines ->
  splitLines (join newline lines) = lines.
Proof.
  induction lines as [|x [|y rest] IH]; intros Hne Hall; [done| |].
  - apply Forall_cons in Hall as [Hx _]. by apply PlainURL.splitOn_absent.
  - apply Forall_cons in Hall as [Hx Hrest].
    rewrite join_cons_cons, splitLines_header by done.
    f_equal. by apply IH.
Qed.

Section Rendering.

Variable NumberToString : number -> jsstring.
Variable cfg : Config.

Lemma webDenseLine_singleLine (i : nat) (r : Web.Result) :
  singleLine (NumberToString (ofZ (Z.of_nat i + 1))) = true ->
  singleLine (Web.title r) = true -> singleLine (Web.description r) = true ->
  singleLine (Web.hostname r) = true -> singleLine (Web.url r) = true ->
  singleLine (js "[" ++ NumberToString (ofZ (Z.of_nat i + 1)) ++ js "] "
              ++ Web.title r ++ js " | " ++ Web.description r ++ js " | "
              ++ Web.hostname r ++ js " " ++ Web.url r) = true.
Proof.
  intros Hn Ht Hd Hh Hu.
  by rewrite !singleLine_app, Ht, Hd, Hh, Hu, Hn.
Qed.

(** X14. One result, one line. When no title, description, hostname or
    URL of the results, not the query and no number as printed holds a
    line feed, and there is at least one result, the text of a web
    search splits at line feeds
    into exactly one line per result in minimal mode, each the title, a
    colon and a space, and the URL; and in dense mode into the header
    followed by exactly one line per result. *)
Theorem web_text_lines (query : jsstring) (eff : number) (results : list Web.Result) :
  results <> [] ->
  singleLine query = true ->
  singleLine (NumberToString eff) = true ->
  (forall i : nat, (i <= length results)%nat ->
     singleLine (NumberToString (ofZ (Z.of_nat i))) = true) ->
  Forall (fun r => singleLine (Web.title r) && singleLine (Web.description r)
                   && singleLine (Web.hostname r) && singleLine (Web.url r) = true)
    results ->
  (outputFormat (search cfg) = Minimal ->
   splitLines (renderWeb NumberToString cfg query eff results)
   = map (fun r => Web.title r ++ js ": " ++ Web.url r) results)
  /\ (outputFormat (search cfg) = Dense ->
   exists header lines,
     splitLines (renderWeb NumberToString cfg query eff results) = header :: lines
     /\ length lines = length results
     /\ header = js "Web:" ++ dquote ++ query ++ dquote ++ js " ("
                 ++ NumberToString (ofZ (Z.of_nat (length results))) ++ js "/"
                 ++ NumberToString eff ++ js ")").
Proof.
  intros Hne Hq Heff Hnum Hall. split; intros Hmode; unfold renderWeb; rewrite Hmode.
  - apply splitLines_join; [by destruct results|].
    apply Forall_fmap. eapply Forall_impl; [exact Hall|].
    intros r Hr. cbv beta in *. rewrite !andb_true_iff in Hr.
    destruct Hr as (((Ht & _) & _) & Hu). unfold compose.
    by rewrite !singleLine_app, Ht, Hu.
  - cbn zeta. unfold count_of.
    set (lines := imap _ results).
    set (header := js "Web:" ++ dquote ++ query ++ dquote ++ js " ("
                   ++ NumberToString (ofZ (Z.of_nat (length results))) ++ js "/"
                   ++ NumberToString eff ++ js ")").
    exists header, lines. split; [|split; [apply length_imap|reflexivity]].
    assert (singleLine header = true) as Hh
      by (unfold header; by rewrite !singleLine_app, Hq, Heff, Hnum).
    match goal with |- splitLines ?text = _ =>
      assert (text = header ++ newline ++ join newline lines) as ->
        by (unfold header; by rewrite <- !app_assoc)
    end.
    rewrite splitLines_header by done. f_equal. apply splitLines_join.
    + unfold lines. destruct results; [done|]. by rewrite imap_cons.
    + apply Forall_lookup. intros i line Hline. unfold lines in Hline.
      rewrite list_lookup_imap in Hline.
      destruct (results !! i) as [r|] eqn:Er; [|done]. injection Hline as <-.
      pose proof (proj1 (Forall_lookup _ _) Hall i r Er) as Hr. cbv beta in Hr.
      rewrite !andb_true_iff in Hr. destruct Hr as (((Ht & Hd) & Hh') & Hu).
      apply webDenseLine_singleLine; try done.
      replace (Z.of_nat i + 1) with (Z.of_nat (S i)) by lia.
      apply Hnum. apply lookup_lt_Some in Er. lia.
Qed.

End Rendering.










(* ===================================================================== *)
(** ** What configuration resolution accepts *)
(* ===================================================================== *)

Section Resolution.

Variable StringToNumber : jsstring -> number.

Lemma zCoerceNumber_None (lo hi dflt : number) (v : option jsstring) :
  zCoerceNumber StringToNumber lo hi dflt v = None
  <-> exists s, v = Some s
        /\ num_leb lo (StringToNumber s) && num_leb (StringToNumber s) hi = false.
Proof.
  unfold zCoerceNumber, num_geb. split.
  - destruct v as [s|]; [|done]. intros Hn. exists s. split; [done|].
    destruct (StringToNumber s) as [| |q|]; [by destruct lo|..];
      by destruct (_ && _).
  - intros (s & -> & Hr).
    destruct (StringToNumber s) as [| |q|]; [done|..]; by rewrite Hr.
Qed.

Lemma zOutputFormat_None (v : option jsstring) :
  zOutputFormat v = None
  <-> exists s, v = Some s /\ s ∉ [js "dense"; js "json"; js "minimal"].
Proof.
  unfold zOutputFormat, jseqb. split.
  - destruct v as [s|]; [|done]. intros Hn. exists s. split; [done|].
    rewrite !not_elem_of_cons. repeat case_bool_decide; try done.
    repeat split; (done || apply not_elem_of_nil).
  - intros (s & -> & Hs). rewrite !not_elem_of_cons in Hs.
    destruct Hs as (?&?&?&_). by rewrite !bool_decide_eq_false_2.
Qed.

(** X17. Start-up stops on exactly three faults of the environment:
    DDG_MAX_RESULTS set to something that does not coerce to a number
    from 1 to 20, DDG_MAX_SNIPPET_LENGTH set to something that does not
    coerce to a number from 50 to 500, or DDG_OUTPUT_FORMAT set to
    something other than dense, json or minimal. Nothing else in the
    environment can stop it: not the two flags, and not the rate caps. *)
Theorem CONFIG_fails_exactly (env : Env) :
  CONFIG StringToNumber env = None
  <-> (exists s, env !! js "DDG_MAX_RESULTS" = Some s
         /\ num_leb (ofZ 1) (StringToNumber s)
            && num_leb (StringToNumber s) (ofZ 20) = false)
      \/ (exists s, env !! js "DDG_MAX_SNIPPET_LENGTH" = Some s
         /\ num_leb (ofZ 50) (StringToNumber s)
            && num_leb (StringToNumber s) (ofZ 500) = false)
      \/ (exists s, env !! js "DDG_OUTPUT_FORMAT" = Some s
         /\ s ∉ [js "dense"; js "json"; js "minimal"]).
Proof.
  rewrite <- (zCoerceNumber_None (ofZ 1) (ofZ 20) (ofZ 3) (env !! js "DDG_MAX_RESULTS")).
  rewrite <- (zCoerceNumber_None (ofZ 50) (ofZ 500) (ofZ 150)
                (env !! js "DDG_MAX_SNIPPET_LENGTH")).
  rewrite <- (zOutputFormat_None (env !! js "DDG_OUTPUT_FORMAT")).
  unfold CONFIG, EnvConfigSchema_parse.
  destruct (zCoerceNumber _ (ofZ 1) _ _ _) as [r|]; [|by split; [left|]].
  destruct (zCoerceNumber _ (ofZ 50) _ _ _) as [l|]; [|by split; [right; left|]].
  destruct (zOutputFormat _) as [f|]; [|by split; [right; right|]].
  cbn. split; [done|]. by intros [|[|]].
Qed.

Lemma zFlag_exact (v : option jsstring) :
  zFlag v = true <-> v = Some (js "true") \/ v = Some (js "1").
Proof.
  unfold zFlag. rewrite orb_true_iff, !bool_decide_eq_true. tauto.
Qed.

(** X18. A flag of the environment is on only when its variable is
    exactly "true" or "1"; any other text, "TRUE" or "yes" among them,
    leaves it off without an error. A numeric key that is not set takes
    its default, 3 results and 150 characters, and an output format that
    is not set is dense. *)
Theorem CONFIG_flags_and_defaults (env : Env) (cfg : Config) :
  CONFIG StringToNumber env = Some cfg ->
  (enableFullContent (search cfg) = true
   <-> env !! js "DDG_ENABLE_FULL_CONTENT" = Some (js "true")
       \/ env !! js "DDG_ENABLE_FULL_CONTENT" = Some (js "1"))
  /\ (stripEmoji (search cfg) = true
   <-> env !! js "DDG_STRIP_EMOJI" = Some (js "true")
       \/ env !! js "DDG_STRIP_EMOJI" = Some (js "1"))
  /\ (env !! js "DDG_MAX_RESULTS" = None -> defaultResults (search cfg) = ofZ 3)
  /\ (env !! js "DDG_MAX_SNIPPET_LENGTH" = None ->
      maxSnippetLength (search cfg) = ofZ 150)
  /\ (env !! js "DDG_OUTPUT_FORMAT" = None -> outputFormat (search cfg) = Dense).
Proof.
  unfold CONFIG, EnvConfigSchema_parse. intros Hc.
  destruct (zCoerceNumber _ (ofZ 1) _ _ _) as [r|] eqn:Er; [|done].
  destruct (zCoerceNumber _ (ofZ 50) _ _ _) as [l|] eqn:El; [|done].
  destruct (zOutputFormat _) as [f|] eqn:Ef; [|done].
  injection Hc as <-.
  cbn [search enableFullContent stripEmoji defaultResults maxSnippetLength
       outputFormat DDG_MAX_RESULTS DDG_MAX_SNIPPET_LENGTH
       DDG_ENABLE_FULL_CONTENT DDG_STRIP_EMOJI DDG_OUTPUT_FORMAT].
  split; [apply zFlag_exact|]. split; [apply zFlag_exact|].
  split; [|split].
  - intros E. rewrite E in Er. by injection Er as <-.
  - intros E. rewrite E in El. by injection El as <-.
  - intros E. rewrite E in Ef. by injection Ef as <-.
Qed.

End Resolution.









(* ===================================================================== *)
(** ** What the log filter lets through *)
(* ===================================================================== *)

(** X20. The log filter is a threshold: when a level is written, every
    level of higher rank is written too. With LOG_LEVEL not set,
    everything but debug is written. A configured level that is not one
    of the five names, a misspelt one for instance, silences every
    message, errors included; and under "none" none of the four levels
    the server logs at is written. *)
Theorem log_filter (configured : jsstring) :
  (forall level level',
     Log.writes configured level = true ->
     Log.LOG_LEVELS level <= Log.LOG_LEVELS level' ->
     Log.writes configured level' = true)
  /\ (forall toLowerCase level,
     Log.writes (Log.configuredLevel toLowerCase ∅) level = true
     <-> level <> Log.debug)
  /\ (configured ∉ [js "debug"; js "info"; js "warn"; js "error"; js "none"] ->
      forall level, Log.writes configured level = false)
  /\ (forall level, Log.writes (js "none") level = true -> level = Log.none).
Proof.
  split; [|split; [|split]].
  - intros level level'. unfold Log.writes.
    destruct (Log.rank configured) as [t|]; [|done].
    rewrite !Z.leb_le. lia.
  - intros lc level. by destruct level.
  - rewrite !not_elem_of_cons. intros (?&?&?&?&?&_) level.
    unfold Log.writes, Log.rank, jseqb. by rewrite !bool_decide_eq_false_2.
  - intros level. by destruct level.
Qed.

(* ===================================================================== *)
(** ** The further properties on concrete requests *)
(* ===================================================================== *)

Lemma unknown_tool_result_witness :
  exampleHandler defaultConfig providerNoResults providerNoResults
    (js "duckduckgo_image_search") (VObject ∅) 0 (initialWorld 0 0)
  = ({| text := js "Unknown tool: duckduckgo_image_search"; isError := true |},
     initialWorld 0 0).
Proof.
  unfold exampleHandler.
  rewrite (unknown_tool_result (H := PlainURL.api) integerToString constantDate
             defaultConfig providerNoResults providerNoResults
             (js "duckduckgo_image_search") (VObject ∅) 0 (initialWorld 0 0));
    [reflexivity | reflexivity | by vm_compute | by vm_compute].
Defined.

Lemma provider_failure_reported_witness :
  let args := VObject {[ js "query" := VString (js "x") ]} in
  (checkRateLimit integerToString defaultConfig 0 (initialWorld 0 0)).1 = inr ()
  /\ exampleHandler defaultConfig providerFailing providerFailing
       (js "duckduckgo_web_search") args 0 (initialWorld 0 0)
     = ({| text := js "Error: network down"; isError := true |},
        {| requestCount :=
             {| second := 1; month := 1; lastSecondReset := 0; lastMonthReset := 0 |};
           providerCalls :=
             [DDG.search (js "x") (webOptions Moderate (js "wt-wt") All)] |}).
Proof.
  cbn zeta.
  assert ((checkRateLimit integerToString defaultConfig 0 (initialWorld 0 0)).1 = inr ())
    as Hadm by reflexivity.
  split; [exact Hadm|].
  destruct (provider_failure_reported (H := PlainURL.api) integerToString constantDate
              defaultConfig providerFailing providerFailing
              (VObject {[ js "query" := VString (js "x") ]}) 0 (initialWorld 0 0)
              (ErrorObject (js "network down")) Hadm) as [Hweb _].
  unfold exampleHandler. rewrite Hweb; [| by vm_compute | reflexivity].
  vm_compute. reflexivity.
Defined.

Lemma rate_limited_request_not_sent_witness :
  let args := VObject {[ js "query" := VString (js "x") ]} in
  let w1 := (exampleHandler defaultConfig providerNoResults providerNoResults
               (js "duckduckgo_web_search") args 0 (initialWorld 0 0)).2 in
  (checkRateLimit integerToString defaultConfig 500 w1).1
    = inl (ErrorObject (js "Rate limit exceeded: Maximum 1 request(s) per second"))
  /\ exampleHandler defaultConfig providerNoResults providerNoResults
       (js "duckduckgo_news_search") args 500 w1
     = ({| text := js "Error: Rate limit exceeded: Maximum 1 request(s) per second";
           isError := true |}, w1).
Proof.
  cbn zeta.
  set (w1 := (exampleHandler defaultConfig providerNoResults providerNoResults
                (js "duckduckgo_web_search")
                (VObject {[ js "query" := VString (js "x") ]}) 0 (initialWorld 0 0)).2).
  assert ((checkRateLimit integerToString defaultConfig 500 w1).1
          = inl (ErrorObject (js "Rate limit exceeded: Maximum 1 request(s) per second")))
    as Hadm by (vm_compute; reflexivity).
  split; [exact Hadm|].
  destruct (rate_limited_request_not_sent (H := PlainURL.api) integerToString
              constantDate defaultConfig providerNoResults providerNoResults
              (VObject {[ js "query" := VString (js "x") ]}) 500 w1 _ Hadm)
    as (_ & _ & Hnews).
  unfold exampleHandler. rewrite Hnews by (by vm_compute).
  vm_compute. reflexivity.
Defined.

Lemma admitted_request_sent_once_witness :
  let fields : gmap jsstring value :=
    {[ js "query" := VString (js " x "); js "safeSearch" := VString (js "off") ]} in
  (checkRateLimit integerToString defaultConfig 0 (initialWorld 0 0)).1 = inr ()
  /\ isWebSearchArgs defaultConfig (VObject fields) = true
  /\ exists options,
       providerCalls
         (exampleHandler defaultConfig providerFailing providerFailing
            (js "duckduckgo_web_search") (VObject fields) 0 (initialWorld 0 0)).2
       = [DDG.search (js " x ") options]
       /\ options !! js "safeSearch" = Some (DDG.OSafeSearch DDG.OFF)
       /\ options !! js "region" = Some (DDG.ORegion (js "wt-wt")).
Proof.
  cbn zeta.
  assert ((checkRateLimit integerToString defaultConfig 0 (initialWorld 0 0)).1 = inr ())
    as Hadm by reflexivity.
  assert (isWebSearchArgs defaultConfig
            (VObject {[ js "query" := VString (js " x ");
                        js "safeSearch" := VString (js "off") ]}) = true)
    as Hv by (by vm_compute).
  split; [exact Hadm|]. split; [exact Hv|].
  destruct (admitted_request_sent_once (H := PlainURL.api) integerToString constantDate
              defaultConfig providerFailing providerFailing
              {[ js "query" := VString (js " x ");
                 js "safeSearch" := VString (js "off") ]} 0 (initialWorld 0 0) Hadm)
    as [Hweb _].
  destruct (Hweb Hv) as (q & options & Hq & Hcalls & Hsafe & Hregion).
  assert (q = js " x ") as -> by (vm_compute in Hq; by injection Hq as <-).
  exists options. split; [exact Hcalls|]. split; [|exact Hregion].
  rewrite Hsafe. vm_compute. reflexivity.
Defined.

Lemma burst_up_to_cap_witness :
  let run := admissions integerToString configCap3 [100; 200; 300] (initialWorld 0 0) in
  run.1 = [inr (); inr (); inr ()]
  /\ second (requestCount run.2) = 3
  /\ (checkRateLimit integerToString configCap3 900 run.2).1
     = inl (ErrorObject (perSecondMessage integerToString configCap3)).
Proof.
  cbn zeta.
  destruct (burst_up_to_cap integerToString configCap3 3 15000 [100; 200; 300]
              (initialWorld 0 0)) as (Hrun & Hworld & Hnext);
    [reflexivity | reflexivity | | simpl; lia | simpl; lia |].
  { repeat constructor; vm_compute; discriminate. }
  split; [exact Hrun|]. split; [by rewrite Hworld|].
  apply Hnext; [reflexivity | vm_compute; discriminate].
Defined.

Lemma isWebSearchArgs_sound_witness :
  let args := VObject {[ js "query" := VString (js "x");
                         js "safeSearch" := VString (js "strict");
                         js "time" := VString (js "week") ]} in
  isWebSearchArgs defaultConfig args = true
  /\ Web.query (asWebSearchArgs args) = js "x"
  /\ Web.safeSearch (asWebSearchArgs args) = Some Strict
  /\ Web.time (asWebSearchArgs args) = Some Week
  /\ Web.region (asWebSearchArgs args) = None.
Proof.
  cbn zeta.
  assert (isWebSearchArgs defaultConfig
            (VObject {[ js "query" := VString (js "x");
                        js "safeSearch" := VString (js "strict");
                        js "time" := VString (js "week") ]}) = true)
    as Hv by (by vm_compute).
  split; [exact Hv|].
  destruct (isWebSearchArgs_sound defaultConfig _ Hv)
    as (fields & q & [= <-] & Hq & Hquery & _ & Hsafe & Htime & Hregion).
  split; [|split; [|split]].
  - rewrite Hquery. vm_compute in Hq. by injection Hq as <-.
  - destruct Hsafe as [[Hs _]|(s & Hs & ->)]; [by vm_compute in Hs|].
    destruct s; vm_compute in Hs; congruence.
  - destruct Htime as [[Ht _]|(t & Ht & ->)]; [by vm_compute in Ht|].
    destruct t; vm_compute in Ht; congruence.
  - destruct Hregion as [[_ ->]|(r & Hr & _)]; [done|by vm_compute in Hr].
Defined.

Lemma snippets_within_cap_witness :
  CONFIG constantNaN ∅ = Some defaultConfig
  /\ enableFullContent (search defaultConfig) = false
  /\ Forall (fun r => num_leb (ofZ (jslength (Web.description r))) (ofZ 150) = true)
       (webResults (H := PlainURL.api) defaultConfig (ofZ 3) [longResult]).
Proof.
  assert (CONFIG constantNaN ∅ = Some defaultConfig) as Hcfg by reflexivity.
  split; [exact Hcfg|]. split; [reflexivity|].
  destruct (snippets_within_cap (H := PlainURL.api) constantDate defaultConfig
              constantNaN ∅ (ofZ 3) Hcfg eq_refl) as [Hweb _].
  apply Forall_forall. intros r Hr. exact (Hweb [longResult] r Hr).
Defined.

Lemma web_text_lines_witness :
  let results := webResults (H := PlainURL.api) defaultConfig (ofZ 2) threeResults in
  results <> []
  /\ exists header lines,
       splitLines (renderWeb integerToString defaultConfig (js "x") (ofZ 2) results)
       = header :: lines
       /\ length lines = 2%nat.
Proof.
  cbn zeta.
  set (results := webResults (H := PlainURL.api) defaultConfig (ofZ 2) threeResults).
  assert (results <> []) as Hne by (vm_compute; discriminate).
  split; [exact Hne|].
  destruct (web_text_lines integerToString defaultConfig (js "x") (ofZ 2) results Hne)
    as [_ Hdense].
  - reflexivity.
  - reflexivity.
  - intros i Hi. change (length results) with 2%nat in Hi.
    destruct i as [|[|[|i]]]; [reflexivity | reflexivity | reflexivity | lia].
  - repeat constructor.
  - destruct (Hdense eq_refl) as (header & lines & Hsplit & Hlen & _).
    exists header, lines. split; [exact Hsplit|]. rewrite Hlen. reflexivity.
Defined.

Lemma results_follow_provider_witness :
  exists r,
    webResults (H := PlainURL.api) defaultConfig (ofZ 2) threeResults !! 1%nat = Some r
    /\ Web.hostname r = js "x.com"
    /\ Web.url r = js "https://x.com/b?id=1"
    /\ Web.title r = js "Title b".
Proof.
  destruct (webResults (H := PlainURL.api) defaultConfig (ofZ 2) threeResults !! 1%nat)
    as [r|] eqn:Er; [|by vm_compute in Er].
  exists r. split; [reflexivity|].
  destruct (results_follow_provider (H := PlainURL.api) defaultConfig (ofZ 2)
              threeResults 1 r Er) as (p & Hp & -> & -> & ->).
  vm_compute in Hp. injection Hp as <-. vm_compute. repeat split.
Defined.


Lemma CONFIG_flags_and_defaults_witness :
  let env : Env := {[ js "DDG_STRIP_EMOJI" := js "TRUE";
                      js "DDG_ENABLE_FULL_CONTENT" := js "1" ]} in
  exists cfg,
    CONFIG constantNaN env = Some cfg
    /\ stripEmoji (search cfg) <> true
    /\ enableFullContent (search cfg) = true
    /\ defaultResults (search cfg) = ofZ 3.
Proof.
  cbn zeta. eexists. split; [vm_compute; reflexivity|].
  match goal with |- stripEmoji (search ?c) <> _ /\ _ =>
    destruct (CONFIG_flags_and_defaults constantNaN
                {[ js "DDG_STRIP_EMOJI" := js "TRUE";
                   js "DDG_ENABLE_FULL_CONTENT" := js "1" ]} c)
      as (Hfull & Hstrip & Hres & _); [vm_compute; reflexivity|]
  end.
  split; [|split].
  - intros Hon. apply Hstrip in Hon as [E|E]; vm_compute in E; discriminate.
  - apply Hfull. right. vm_compute. reflexivity.
  - apply Hres. vm_compute. reflexivity.
Defined.


Lemma rate_counters_within_caps_witness :
  let args := VObject {[ js "query" := VString (js "x") ]} in
  let call := exampleHandler defaultConfig providerNoResults providerNoResults
                (js "duckduckgo_web_search") args in
  let w2 := (call 400 (call 0 (initialWorld 0 0)).2).2 in
  CONFIG constantNaN ∅ = Some defaultConfig
  /\ reachable (H := PlainURL.api) integerToString constantDate defaultConfig w2
  /\ num_leb (ofZ (second (requestCount w2))) (ofZ 1) = true
  /\ num_leb (ofZ (month (requestCount w2))) (ofZ 15000) = true.
Proof.
  cbn zeta.
  assert (CONFIG constantNaN ∅ = Some defaultConfig) as Hcfg by reflexivity.
  split; [exact Hcfg|].
  match goal with |- reachable _ _ _ ?w /\ _ =>
    assert (reachable (H := PlainURL.api) integerToString constantDate defaultConfig w)
      as Hreach by (unfold exampleHandler; do 2 apply reachable_call; apply reachable_start)
  end.
  split; [exact Hreach|].
  exact (rate_counters_within_caps (H := PlainURL.api) integerToString constantDate
           constantNaN ∅ defaultConfig _ Hcfg eq_refl eq_refl Hreach).
Defined.
